(** * Job lifecycle of the PDF-to-CSV backend: routes/jobs.js, the n8n
      forwarder (services/n8nClient), middleware/rateLimiter.js and the
      files router.

    The handlers are embedded as state-passing functions over a [World]
    (job store, temporary files, clock, event trace); thrown JavaScript
    exceptions are the [Throw] outcome of a small error/state monad. *)

From Stdlib Require Import ZArith String Ascii List Bool Lia.
From Stdlib Require Import DecimalString.
From stdpp Require Import base option gmap strings list sorting.

Set Warnings "-register-all".
Local Open Scope string_scope.
Local Open Scope Z_scope.

(* ================================================================== *)
(** ** JavaScript values *)
(* ================================================================== *)

(** Values exchanged with the outside (JSON bodies, optional fields).
    Numbers are the integers; objects are key/value lists as parsed. *)
Inductive JSValue : Type :=
| JUndefined
| JNull
| JBool (b : bool)
| JNum (n : Z)
| JStr (s : string)
| JArr (items : list JSValue)
| JObj (fields : list (string * JSValue)).

(** ToBoolean: what [if (v)], [!v] and [v || d] test. *)
Definition truthy (v : JSValue) : bool :=
  match v with
  | JUndefined | JNull => false
  | JBool b => b
  | JNum n => negb (n =? 0)
  | JStr s => negb (String.eqb s "")
  | JArr _ | JObj _ => true
  end.

(** [typeof v] for the error messages of property reads. *)
Definition nullish_name (v : JSValue) : option string :=
  match v with
  | JUndefined => Some "undefined"
  | JNull => Some "null"
  | _ => None
  end.

Fixpoint assoc_get (k : string) (kvs : list (string * JSValue)) : JSValue :=
  match kvs with
  | [] => JUndefined
  | (k', v) :: rest => if String.eqb k k' then v else assoc_get k rest
  end.

(* ================================================================== *)
(** ** Exceptions and the handler monad *)
(* ================================================================== *)

(** An Error object: constructor name, message, and the two fields that
    [createError] and axios add. *)
Record Exn : Type := mkExn {
  exn_name : string;
  message : string;
  statusCode : option Z;
  code : option string
}.

Definition Error (msg : string) : Exn := mkExn "Error" msg None None.
Definition TypeError (msg : string) : Exn := mkExn "TypeError" msg None None.

(** Modelled from the spec: middleware/errors is not among the sources;
    [createError(message, statusCode, code)] builds an Error carrying
    exactly these three values, which the request boundary maps to the
    response status and the stable error code. *)
Definition createError (msg : string) (status : Z) (c : string) : Exn :=
  mkExn "Error" msg (Some status) (Some c).

Inductive Outcome (A : Type) : Type :=
| Return (a : A)
| Throw (e : Exn).
Arguments Return {A} a.
Arguments Throw {A} e.

(** Property read [v.k] for a key that no built-in prototype defines: it
    throws on [undefined] and [null]. *)
Definition get_prop (v : JSValue) (k : string) : Outcome JSValue :=
  match v with
  | JObj kvs => Return (assoc_get k kvs)
  | JUndefined | JNull =>
      Throw (TypeError ("Cannot read properties of "
                          +:+ default "" (nullish_name v)
                          +:+ " (reading '" +:+ k +:+ "')"))
  | _ => Return JUndefined
  end.

(* ================================================================== *)
(** ** Strings: the two filename rewrites *)
(* ================================================================== *)

Definition lower_ascii (c : ascii) : ascii :=
  let n := nat_of_ascii c in
  if (65 <=? n)%nat && (n <=? 90)%nat then ascii_of_nat (n + 32) else c.

Fixpoint lower (s : string) : string :=
  match s with
  | EmptyString => EmptyString
  | String c r => String (lower_ascii c) (lower r)
  end.

(** [s] with its last [n] characters removed, when they spell [suf]
    up to ASCII case. *)
Definition strip_suffix_ci (suf s : string) : option string :=
  let n := String.length s in
  let k := String.length suf in
  if (k <=? n)%nat
  then if String.eqb (lower (substring (n - k) k s)) suf
       then Some (substring 0 (n - k) s) else None
  else None.

(** [s.replace(/\.(e1|e2|...)$/i, repl)]: the first position where the
    pattern matches is the leftmost, that is the longest suffix. *)
Fixpoint replace_ext (exts : list string) (repl s : string) : string :=
  match exts with
  | [] => s
  | e :: rest =>
      match strip_suffix_ci ("." +:+ e) s with
      | Some stem => stem +:+ repl
      | None => replace_ext rest repl s
      end
  end.

(** [originalName.replace(/\.(pdf|jpg|jpeg|png|gif|webp|tiff|tif|bmp)$/i, '.csv')];
    the five-letter suffixes are tried first: a four-letter match never
    starts left of a five-letter one. *)
Definition csvFileName_of (originalName : string) : string :=
  replace_ext ["jpeg"; "webp"; "tiff"; "pdf"; "jpg"; "png"; "gif"; "tif"; "bmp"]
              ".csv" originalName.

(** [filenamePdf.replace(/\.pdf$/i, '.csv')] *)
Definition pdf_to_csv (filenamePdf : string) : string :=
  replace_ext ["pdf"] ".csv" filenamePdf.

Definition starts_with (pre s : string) : bool := String.prefix pre s.

Definition string_of_Z (z : Z) : string := NilZero.string_of_int (Z.to_int z).

(* ================================================================== *)
(** ** The job record and the Job Store *)
(* ================================================================== *)

(** [job.status]: one of 'pending', 'done', 'error'. *)
Inductive Status : Type := St_pending | St_done | St_error.

Definition status_string (s : Status) : string :=
  match s with
  | St_pending => "pending"
  | St_done => "done"
  | St_error => "error"
  end.

Definition status_eqb (a b : Status) : bool :=
  String.eqb (status_string a) (status_string b).

Definition terminal (s : Status) : bool :=
  match s with St_pending => false | St_done | St_error => true end.

(** The fields routes/jobs.js reads from a job. Optional fields hold
    [JUndefined] until they are set. *)
Module Job.
Record t : Type := mk {
  status : Status;
  filenamePdf : string;
  createdAt : Z;
  updatedAt : Z;
  executionId : JSValue;
  executionStatus : JSValue;
  executionMessage : JSValue;
  webhookUrl : JSValue;
  executionMode : JSValue;
  r2Key : JSValue;
  presignedUrl : JSValue;
  error : JSValue
}.
End Job.

(** The object the upload handler passes to [updateExecutionDetails]. *)
Module ExecutionRecord.
Record t : Type := mk {
  executionId : JSValue;
  executionStatus : JSValue;
  executionMessage : JSValue;
  webhookUrl : JSValue;
  executionMode : JSValue
}.
End ExecutionRecord.

(** The partial object of [updateJob]; the only caller passes
    [{ presignedUrl }]. *)
Module JobPatch.
Record t : Type := mk { presignedUrl : option JSValue }.
End JobPatch.

Module jobStore.

(** Modelled from the spec: services/jobStore is not among the sources.
    [createJob] initialises [status = pending] and both timestamps to
    now; it fails if the id already exists. *)
Definition newJob (sourceFilename : string) (now : Z) : Job.t :=
  Job.mk St_pending sourceFilename now now
         JUndefined JUndefined JUndefined JUndefined JUndefined
         JUndefined JUndefined JUndefined.

(** Modelled from the spec: see [newJob]. *)
Definition createJob (id sourceFilename : string) (now : Z)
    (s : gmap string Job.t) : Outcome Job.t * gmap string Job.t :=
  match s !! id with
  | Some _ => (Throw (Error ("Job " +:+ id +:+ " already exists")), s)
  | None => let j := newJob sourceFilename now in (Return j, <[id := j]> s)
  end.

(** Modelled from the spec: [getJob(id) -> Job | absent], a pure lookup. *)
Definition getJob (id : string) (s : gmap string Job.t) : option Job.t :=
  s !! id.

(** Modelled from the spec: [updateExecutionDetails] attaches the
    execution record to an existing job and is ignored when the job is
    absent or already terminal. *)
Definition updateExecutionDetails (id : string) (r : ExecutionRecord.t)
    (now : Z) (s : gmap string Job.t) : gmap string Job.t :=
  match s !! id with
  | Some j =>
      if terminal (Job.status j) then s
      else <[id := Job.mk (Job.status j) (Job.filenamePdf j) (Job.createdAt j) now
                     (ExecutionRecord.executionId r)
                     (ExecutionRecord.executionStatus r)
                     (ExecutionRecord.executionMessage r)
                     (ExecutionRecord.webhookUrl r)
                     (ExecutionRecord.executionMode r)
                     (Job.r2Key j) (Job.presignedUrl j) (Job.error j)]> s
  | None => s
  end.

(** Modelled from the spec: [completeJob(id, resultRef)] moves a pending
    job to done, sets the result reference and refreshes [updatedAt];
    it is ignored (reported as [false], never raised) when the job is
    absent or already terminal. *)
Definition completeJob (id : string) (resultRef : JSValue) (now : Z)
    (s : gmap string Job.t) : bool * gmap string Job.t :=
  match s !! id with
  | Some j =>
      if terminal (Job.status j) then (false, s)
      else (true,
            <[id := Job.mk St_done (Job.filenamePdf j) (Job.createdAt j) now
                      (Job.executionId j) (Job.executionStatus j)
                      (Job.executionMessage j) (Job.webhookUrl j)
                      (Job.executionMode j)
                      resultRef (Job.presignedUrl j) (Job.error j)]> s)
  | None => (false, s)
  end.

(** Modelled from the spec: [failJob(id, reason)] moves a pending job to
    error and sets the reason, with the idempotency rule of
    [completeJob]. *)
Definition failJob (id : string) (reason : JSValue) (now : Z)
    (s : gmap string Job.t) : bool * gmap string Job.t :=
  match s !! id with
  | Some j =>
      if terminal (Job.status j) then (false, s)
      else (true,
            <[id := Job.mk St_error (Job.filenamePdf j) (Job.createdAt j) now
                      (Job.executionId j) (Job.executionStatus j)
                      (Job.executionMessage j) (Job.webhookUrl j)
                      (Job.executionMode j)
                      (Job.r2Key j) (Job.presignedUrl j) reason]> s)
  | None => (false, s)
  end.

(** Modelled from the spec: [updateJob(id, partialFields)] writes
    non-status fields only and refreshes [updatedAt]. *)
Definition updateJob (id : string) (p : JobPatch.t) (now : Z)
    (s : gmap string Job.t) : gmap string Job.t :=
  match s !! id with
  | Some j =>
      <[id := Job.mk (Job.status j) (Job.filenamePdf j) (Job.createdAt j) now
                (Job.executionId j) (Job.executionStatus j)
                (Job.executionMessage j) (Job.webhookUrl j)
                (Job.executionMode j) (Job.r2Key j)
                (default (Job.presignedUrl j) (JobPatch.presignedUrl p))
                (Job.error j)]> s
  | None => s
  end.

(** The terminal-transition calls a callback or a handler can issue. *)
Inductive Call : Type :=
| CompleteJob (id : string) (resultRef : JSValue) (now : Z)
| FailJob (id : string) (reason : JSValue) (now : Z).

Definition apply (c : Call) (s : gmap string Job.t) : gmap string Job.t :=
  match c with
  | CompleteJob id ref now => snd (completeJob id ref now s)
  | FailJob id reason now => snd (failJob id reason now s)
  end.

(** Calls are synchronous, so concurrent handlers (duplicates, races)
    reach the store as some sequence of calls. *)
Definition run (cs : list Call) (s : gmap string Job.t) : gmap string Job.t :=
  fold_left (fun acc c => apply c acc) cs s.

Definition status_of (id : string) (s : gmap string Job.t) : option Status :=
  Job.status <$> s !! id.

(** The transitions of the state machine, with "no change". *)
Definition allowed (a b : option Status) : Prop :=
  a = b \/ (a = Some St_pending /\ (b = Some St_done \/ b = Some St_error)).

End jobStore.

(* ================================================================== *)
(** ** The world of a request handler *)
(* ================================================================== *)

Inductive Level : Type := LLog | LWarn | LError.

(** The console lines of the sources, by their interpolated values (the
    decoration of the text is not modelled). *)
Inductive LogMsg : Type :=
| LogReceivedUpload (originalname : string) (size : Z)
| LogForwarding (fileType originalName jobId : string)
| LogAccepted (fileType originalName : string) (status : Z)
| LogExecutionStarted (executionId executionStatus : JSValue)
| LogForwardFailed (msg : string)
| LogExecutionTracking (executionId : JSValue) (jobId : string)
| LogCleanupFailed (msg : string)
| LogCleanupFailedAfterError (msg : string)
| LogJobCreated (jobId originalname : string)
| LogDownloadUrlFailed (jobId msg : string).

(** A part of the multipart payload. *)
Inductive FormValue : Type :=
| FileStream (path filename contentType : string)
| Field (v : JSValue).

(** Calls into the Job Store, as they appear in the trace. *)
Inductive StoreCall : Type :=
| CallCreateJob (id filename : string)
| CallGetJob (id : string)
| CallUpdateExecutionDetails (id : string) (r : ExecutionRecord.t)
| CallFailJob (id : string) (reason : JSValue)
| CallUpdateJob (id : string) (p : JobPatch.t).

Inductive Event : Type :=
| EvConsole (lvl : Level) (m : LogMsg)
| EvCreateReadStream (path : string)
| EvHttpPost (url : string) (form : list (string * FormValue))
| EvUnlink (path : string)
| EvStore (c : StoreCall)
| EvGenerateDownloadUrl (id : string).

Record World : Type := mkWorld {
  store : gmap string Job.t;   (* the Job Store's registry *)
  files : gset string;         (* paths present under tmp/ *)
  clock : Z;                   (* Date.now() *)
  trace : list Event           (* effects so far, oldest first *)
}.

Definition M (A : Type) : Type := World -> Outcome A * World.

Definition ret {A} (a : A) : M A := fun w => (Return a, w).

Definition throw {A} (e : Exn) : M A := fun w => (Throw e, w).

Definition bind {A B} (m : M A) (k : A -> M B) : M B :=
  fun w =>
    match m w with
    | (Return a, w') => k a w'
    | (Throw e, w') => (Throw e, w')
    end.

(** [try { body } catch (error) { handler }] *)
Definition try_catch {A} (body : M A) (handler : Exn -> M A) : M A :=
  fun w =>
    match body w with
    | (Return a, w') => (Return a, w')
    | (Throw e, w') => handler e w'
    end.

Notation "x <- m ;; k" := (bind m (fun x => k))
  (at level 100, m at level 99, right associativity).
Notation "m ;;; k" := (bind m (fun _ => k))
  (at level 100, right associativity).

Definition emit (ev : Event) : M unit :=
  fun w => (Return tt, mkWorld (store w) (files w) (clock w) (trace w ++ [ev])%list).

Definition console (lvl : Level) (m : LogMsg) : M unit := emit (EvConsole lvl m).

Definition lift {A} (o : Outcome A) : M A := fun w => (o, w).

Definition set_store (s : gmap string Job.t) : M unit :=
  fun w => (Return tt, mkWorld s (files w) (clock w) (trace w)).

(** The error of a file system call on a missing path. *)
Definition ENOENT (path : string) : Exn :=
  mkExn "Error" ("ENOENT: no such file or directory, unlink '" +:+ path +:+ "'")
        None (Some "ENOENT").

(** [fs.unlinkSync(path)]: removes the file, or throws when it is absent. *)
Definition unlinkSync (path : string) : M unit :=
  emit (EvUnlink path) ;;;
  fun w =>
    if decide (path ∈ files w)
    then (Return tt, mkWorld (store w) (files w ∖ {[path]}) (clock w) (trace w))
    else (Throw (ENOENT path), w).

(** The Job Store as the handlers call it. *)
Definition createJob (id filename : string) : M Job.t :=
  emit (EvStore (CallCreateJob id filename)) ;;;
  fun w =>
    let '(r, s) := jobStore.createJob id filename (clock w) (store w) in
    (r, mkWorld s (files w) (clock w) (trace w)).

Definition getJob (id : string) : M (option Job.t) :=
  emit (EvStore (CallGetJob id)) ;;;
  fun w => (Return (jobStore.getJob id (store w)), w).

Definition updateExecutionDetails (id : string) (r : ExecutionRecord.t) : M unit :=
  emit (EvStore (CallUpdateExecutionDetails id r)) ;;;
  fun w => set_store (jobStore.updateExecutionDetails id r (clock w) (store w)) w.

Definition failJob (id : string) (reason : JSValue) : M unit :=
  emit (EvStore (CallFailJob id reason)) ;;;
  fun w => set_store (snd (jobStore.failJob id reason (clock w) (store w))) w.

Definition updateJob (id : string) (p : JobPatch.t) : M unit :=
  emit (EvStore (CallUpdateJob id p)) ;;;
  fun w => set_store (jobStore.updateJob id p (clock w) (store w)) w.

(* ================================================================== *)
(** ** middleware/rateLimiter.js: the callback limiter *)
(* ================================================================== *)

(** What a limiter sees of a request: [req.ip] and the value of the
    [x-callback-secret] header ([None] when the header is not sent). *)
Record Request : Type := mkRequest {
  ip : string;
  x_callback_secret : option string
}.

(** The options object passed to [rateLimit]. *)
Record LimiterOptions : Type := mkLimiter {
  windowMs : Z;
  max : Z;
  limit_code : string;
  keyGenerator : Request -> string;
  skip : Request -> bool
}.

Inductive Verdict : Type :=
| Next                       (* the request goes on to the route *)
| TooMany (c : string).      (* 429 with the limiter's message *)

(** express-rate-limit within one window: a skipped request is passed on
    uncounted; any other request adds one hit under its key and is
    refused once the hits exceed [max]. *)
Definition rateLimit (o : LimiterOptions) (req : Request)
    (hits : gmap string Z) : Verdict * gmap string Z :=
  if skip o req then (Next, hits)
  else
    let key := keyGenerator o req in
    let n := default 0 (hits !! key) + 1 in
    (if max o <? n then TooMany (limit_code o) else Next, <[key := n]> hits).

(** [callbackSecret === process.env.CALLBACK_SECRET]: both sides are a
    string or [undefined]. *)
Definition strict_eq (a b : option string) : bool :=
  match a, b with
  | None, None => true
  | Some x, Some y => String.eqb x y
  | _, _ => false
  end.

Definition callbackLimiter (env : gmap string string) : LimiterOptions :=
  mkLimiter (60 * 1000) 100 "CALLBACK_RATE_LIMIT_EXCEEDED"
    (fun req => ip req +:+ "-callback")
    (fun req =>
       let callbackSecret := x_callback_secret req in
       strict_eq callbackSecret (env !! "CALLBACK_SECRET")).

(** A run of requests through one limiter. *)
Fixpoint serve (o : LimiterOptions) (reqs : list Request)
    (hits : gmap string Z) : list Verdict * gmap string Z :=
  match reqs with
  | [] => ([], hits)
  | r :: rest =>
      let '(v, hits') := rateLimit o r hits in
      let '(vs, hits'') := serve o rest hits' in
      (v :: vs, hits'')
  end.

(** A request carries a valid shared secret when a secret is configured
    and the header is exactly that secret. *)
Definition has_valid_secret (env : gmap string string) (req : Request) : Prop :=
  exists s, env !! "CALLBACK_SECRET" = Some s /\ x_callback_secret req = Some s.

(* ================================================================== *)
(** ** services/n8nClient (src/unnamed/part_001): the file as Node compiles it *)
(* ================================================================== *)

(** Node compiles a file as a whole before it runs its first statement,
    and the compiler refuses a block that declares one name twice with
    [const], [let] or [class]. The statements of the file are kept by
    what they declare and by the blocks they open; the number is the line
    a statement starts on. *)
Inductive Stmt : Type :=
| SConst (line : Z) (name : string)                 (* const name = ...; *)
| SExpr (line : Z)                                  (* an expression statement *)
| SReturn (line : Z)
| SThrow (line : Z)
| SIf (line : Z) (consequent : list Stmt)           (* if (...) { ... } *)
| STry (line : Z) (block : list Stmt)
       (param : string) (handler : list Stmt).      (* try { } catch (param) { } *)

Record Method : Type := mkMethod {
  method_line : Z;
  method_name : string;
  method_params : list string;     (* the names the parameters bind *)
  method_body : list Stmt
}.

Inductive TopLevel : Type :=
| TStmt (s : Stmt)
| TClass (line : Z) (name : string) (methods : list Method).

(** The names a block declares itself, in order (not those of the blocks
    inside it). *)
Fixpoint const_names (body : list Stmt) : list string :=
  match body with
  | [] => []
  | SConst _ x :: rest => x :: const_names rest
  | _ :: rest => const_names rest
  end.

(** One block read statement by statement: a [const] whose name the block
    has declared already (or, in a function body or a catch clause, that a
    parameter binds) is the early error; a statement that opens blocks is
    searched with [inside]. The answer is the name declared twice. *)
Definition scan_block (inside : Stmt -> option string)
  : list string -> list Stmt -> option string :=
  fix scan (declared : list string) (body : list Stmt) : option string :=
    match body with
    | [] => None
    | s :: rest =>
        match s with
        | SConst _ x =>
            if bool_decide (x ∈ declared) then Some x else scan (x :: declared) rest
        | _ =>
            match inside s with
            | Some x => Some x
            | None => scan declared rest
            end
        end
    end.

(** The early error inside the blocks a statement opens. *)
Fixpoint early_error (s : Stmt) : option string :=
  match s with
  | SIf _ consequent => scan_block early_error [] consequent
  | STry _ block param handler =>
      match scan_block early_error [] block with
      | Some x => Some x
      | None => scan_block early_error [param] handler
      end
  | _ => None
  end.

Definition method_early_error (m : Method) : option string :=
  scan_block early_error (method_params m) (method_body m).

Fixpoint first_error {A} (check : A -> option string) (l : list A) : option string :=
  match l with
  | [] => None
  | x :: rest =>
      match check x with
      | Some name => Some name
      | None => first_error check rest
      end
  end.

(** The top level of a CommonJS file is the body of a function of these
    five parameters. *)
Definition module_parameters : list string :=
  ["exports"; "require"; "module"; "__filename"; "__dirname"].

Fixpoint scan_module (declared : list string) (items : list TopLevel) : option string :=
  match items with
  | [] => None
  | TStmt (SConst _ x) :: rest =>
      if bool_decide (x ∈ declared) then Some x else scan_module (x :: declared) rest
  | TStmt s :: rest =>
      match early_error s with
      | Some x => Some x
      | None => scan_module declared rest
      end
  | TClass _ name methods :: rest =>
      if bool_decide (name ∈ declared) then Some name
      else match first_error method_early_error methods with
           | Some x => Some x
           | None => scan_module (name :: declared) rest
           end
  end.

Definition SyntaxError (msg : string) : Exn := mkExn "SyntaxError" msg None None.

Definition already_declared (name : string) : Exn :=
  SyntaxError ("Identifier '" +:+ name +:+ "' has already been declared").

Definition compile (source : list TopLevel) : option Exn :=
  match scan_module module_parameters source with
  | Some name => Some (already_declared name)
  | None => None
  end.

(** [require(file)] for a file not loaded before: the file is compiled,
    and only a file that compiles is evaluated; [body] is that evaluation,
    which yields what the file exports. *)
Definition require {A} (source : list TopLevel) (body : M A) : M A :=
  match compile source with
  | Some e => throw e
  | None => body
  end.

(** The constructor, lines 13-19. *)
Definition constructor_method : Method :=
  mkMethod 13 "constructor" []
    [ SExpr 14;
      SIf 16 [ SExpr 17 ] ].

(** The [try] block of [forwardToN8n], lines 38-105. *)
Definition forwardToN8n_try : list Stmt :=
  [ SConst 40 "formData";
    SConst 43 "contentType";
    SConst 44 "fileExtension";
    SConst 45 "csvFileName";
    SConst 48 "fileStream";
    SExpr 49;
    SExpr 55;
    SExpr 58;
    SExpr 59;
    SExpr 60;
    SExpr 61;
    SExpr 62;
    SConst 64 "fileType";
    SExpr 65;
    SConst 68 "response";
    SConst 78 "fileType";
    SExpr 79;
    SConst 82 "responseData";
    SIf 83 [ SConst 84 "executionInfo"; SExpr 85; SReturn 87 ];
    SReturn 99 ].

(** Its [catch (error)] block, lines 105-122. *)
Definition forwardToN8n_catch : list Stmt :=
  [ SExpr 106;
    SConst 109 "errorInfo";
    SIf 115 [ SExpr 116; SExpr 117; SExpr 118 ];
    SThrow 121 ].

(** [async forwardToN8n({ filePath, originalName, jobId, mimetype })],
    lines 30-123, around a given [try] block. *)
Definition forwardToN8n_around (try_block : list Stmt) : Method :=
  mkMethod 30 "forwardToN8n" ["filePath"; "originalName"; "jobId"; "mimetype"]
    [ SExpr 32;
      SIf 34 [ SThrow 35 ];
      STry 38 try_block "error" forwardToN8n_catch ].

Definition forwardToN8n_method : Method := forwardToN8n_around forwardToN8n_try.

(** [async healthCheck()], lines 129-142. *)
Definition healthCheck_method : Method :=
  mkMethod 129 "healthCheck" []
    [ SIf 130 [ SReturn 131 ];
      STry 134 [ SConst 136 "response"; SReturn 137 ]
           "error" [ SExpr 139; SReturn 140 ] ].

(** The file, around a given [try] block of [forwardToN8n]. *)
Definition n8nClient_around (try_block : list Stmt) : list TopLevel :=
  [ TStmt (SConst 1 "axios");
    TStmt (SConst 2 "FormData");
    TStmt (SConst 3 "fs");
    TStmt (SConst 4 "path");
    TStmt (SConst 5 "dotenv");
    TStmt (SExpr 6);
    TClass 12 "N8nClient"
      [ constructor_method; forwardToN8n_around try_block; healthCheck_method ];
    TStmt (SExpr 145) ].

(** src/unnamed/part_001 as it stands. *)
Definition n8nClient_source : list TopLevel := n8nClient_around forwardToN8n_try.

(* ================================================================== *)
(** ** The forwarder as the upload handler calls it *)
(* ================================================================== *)

(** The return value of [forwardToN8n]; fields left out of the object
    literal read as [JUndefined]. *)
Module Ack.
Record t : Type := mk {
  success : bool;
  status : Z;
  data : JSValue;
  executionId : JSValue;
  executionStatus : JSValue;
  message : JSValue;
  webhookUrl : JSValue;
  executionMode : JSValue
}.
End Ack.

(** The destructured parameter object; [mimetype] is [None] when the
    caller leaves it out. *)
Record ForwardArgs : Type := mkForwardArgs {
  filePath : string;
  originalName : string;
  jobId : string;
  mimetype : option string
}.

Definition opt_value (o : option string) : JSValue :=
  match o with Some s => JStr s | None => JUndefined end.

(** An express response: the status code and the JSON body. *)
Record Response (B : Type) : Type := mkResponse {
  http_status : Z;
  body : B
}.
Arguments mkResponse {B} _ _.
Arguments http_status {B} _.
Arguments body {B} _.

Section Backend.

(** The collaborators outside the sources: the syntactic check of a job
    id (utils/ids) and [generateDownloadUrl(jobId)] (services/mongoClient). *)
Variable isValidJobId : string -> bool.
Variable generateDownloadUrl : string -> Outcome string.

(** The fields appended on lines 49-61, in order (form-data takes the
    stream and the strings as they are). *)
Definition form_before_fileType (a : ForwardArgs) : list (string * FormValue) :=
  let contentType :=
    if truthy (opt_value (mimetype a))
    then default "" (mimetype a) else "application/pdf" in
  let csvFileName := csvFileName_of (originalName a) in
  [ ("file", FileStream (filePath a) (originalName a) contentType);
    ("jobId", Field (JStr (jobId a)));
    ("originalName", Field (JStr (originalName a)));
    ("originalFilename", Field (JStr (originalName a)));
    ("fileName", Field (JStr (originalName a)));
    ("csvFileName", Field (JStr csvFileName)) ].

(* ================================================================== *)
(** ** routes/jobs.js *)
(* ================================================================== *)

(** [req.file] as multer leaves it. *)
Record UploadedFile : Type := mkUploadedFile {
  originalname : string;
  path : string;
  size : Z
}.

Record ExecutionView : Type := mkExecutionView {
  ev_id : JSValue;
  ev_status : JSValue;
  ev_message : JSValue;
  ev_mode : JSValue;
  ev_webhookUrl : JSValue      (* left out by the upload response *)
}.

Record UploadBody : Type := mkUploadBody {
  up_jobId : string;
  up_message : string;
  up_filename : string;
  up_execution : option ExecutionView
}.

(** [try { fs.unlinkSync(filePath) } catch (cleanupError) { console.warn(...) }] *)
Definition cleanup (filePath : string) (warning : string -> LogMsg) : M unit :=
  try_catch (unlinkSync filePath)
    (fun cleanupError => console LWarn (warning (message cleanupError))).

(** Lines 56-94: the rest of the [try] block once the forwarder has
    answered. *)
Definition upload_after_forward (f : UploadedFile) (jobId : string)
    (n8nResponse : Ack.t) : M (Response UploadBody) :=
  (if truthy (Ack.executionId n8nResponse)
   then
     updateExecutionDetails jobId
       (ExecutionRecord.mk (Ack.executionId n8nResponse)
                           (Ack.executionStatus n8nResponse)
                           (Ack.message n8nResponse)
                           (Ack.webhookUrl n8nResponse)
                           (Ack.executionMode n8nResponse)) ;;;
     console LLog (LogExecutionTracking (Ack.executionId n8nResponse) jobId)
   else ret tt) ;;;
  cleanup (path f) LogCleanupFailed ;;;
  console LLog (LogJobCreated jobId (originalname f)) ;;;
  ret (mkResponse 201
         (mkUploadBody jobId "PDF uploaded and processing started" (originalname f)
            (if truthy (Ack.executionId n8nResponse)
             then Some (mkExecutionView (Ack.executionId n8nResponse)
                                        (Ack.executionStatus n8nResponse)
                                        (Ack.message n8nResponse)
                                        (Ack.executionMode n8nResponse)
                                        JUndefined)
             else None))).

(** Lines 96-110: the [catch] block. *)
Definition upload_catch (f : UploadedFile) (jobId : string) (error : Exn)
  : M (Response UploadBody) :=
  cleanup (path f) LogCleanupFailedAfterError ;;;
  (if truthy (JStr jobId)
   then failJob jobId (JStr (message error))
   else ret tt) ;;;
  throw error.

(** The upload handler after [generateJobId()] returned [jobId], with
    the forwarder it awaits as an argument. *)
Definition uploadHandler_with (forward : ForwardArgs -> M Ack.t)
    (file : option UploadedFile) (jobId : string) : M (Response UploadBody) :=
  match file with
  | None => throw (createError "No file uploaded" 400 "NO_FILE")
  | Some f =>
      console LLog (LogReceivedUpload (originalname f) (size f)) ;;;
      try_catch
        (createJob jobId (originalname f) ;;;
         n8nResponse <- forward (mkForwardArgs (path f) (originalname f) jobId None) ;;
         upload_after_forward f jobId n8nResponse)
        (upload_catch f jobId)
  end.

Record StatusBody : Type := mkStatusBody {
  sb_jobId : string;
  sb_status : Status;
  sb_ready : bool;
  sb_filename : string;
  sb_createdAt : Z;
  sb_updatedAt : Z;
  sb_execution : option ExecutionView;
  sb_downloadUrl : option JSValue;
  sb_error : option JSValue
}.

Definition execution_of (job : Job.t) : ExecutionView :=
  mkExecutionView (Job.executionId job) (Job.executionStatus job)
                  (Job.executionMessage job) (Job.executionMode job)
                  (Job.webhookUrl job).

(** Lines 128-156: the response object of the status route. *)
Definition status_view (jobId : string) (job : Job.t) : StatusBody :=
  mkStatusBody jobId (Job.status job)
    (status_eqb (Job.status job) St_done)
    (Job.filenamePdf job) (Job.createdAt job) (Job.updatedAt job)
    (if truthy (Job.executionId job) then Some (execution_of job) else None)
    (if status_eqb (Job.status job) St_done && truthy (Job.presignedUrl job)
     then Some (Job.presignedUrl job) else None)
    (if status_eqb (Job.status job) St_error && truthy (Job.error job)
     then Some (Job.error job) else None).

(** The first lines of the three per-job routes. *)
Definition lookup_job (jobId : string) : M Job.t :=
  if negb (isValidJobId jobId)
  then throw (createError "Invalid job ID format" 400 "INVALID_JOB_ID")
  else
    job <- getJob jobId ;;
    match job with
    | None => throw (createError "Job not found" 404 "JOB_NOT_FOUND")
    | Some job => ret job
    end.

(** GET /api/jobs/:jobId/status *)
Definition statusHandler (jobId : string) : M (Response StatusBody) :=
  job <- lookup_job jobId ;;
  ret (mkResponse 200 (status_view jobId job)).

Record DownloadBody : Type := mkDownloadBody {
  url : string;
  filename : string;
  expiresInSeconds : Z
}.

(** GET /api/jobs/:jobId/download-url *)
Definition downloadUrlHandler (jobId : string) : M (Response DownloadBody) :=
  job <- lookup_job jobId ;;
  if negb (status_eqb (Job.status job) St_done)
  then throw (createError "Job not completed yet" 400 "JOB_NOT_READY")
  else if negb (truthy (Job.r2Key job))
  then throw (createError "CSV file not available" 500 "CSV_NOT_AVAILABLE")
  else
    try_catch
      (emit (EvGenerateDownloadUrl jobId) ;;;
       downloadUrl <- lift (generateDownloadUrl jobId) ;;
       updateJob jobId (JobPatch.mk (Some (JStr downloadUrl))) ;;;
       ret (mkResponse 200
              (mkDownloadBody downloadUrl (pdf_to_csv (Job.filenamePdf job)) 3600)))
      (fun error =>
         console LError (LogDownloadUrlFailed jobId (message error)) ;;;
         throw (createError "Failed to generate download URL" 500 "DOWNLOAD_URL_ERROR")).

Record ExecutionBody : Type := mkExecutionBody {
  eb_jobId : string;
  eb_execution : ExecutionView;
  eb_jobStatus : Status;
  eb_createdAt : Z;
  eb_updatedAt : Z
}.

(** GET /api/jobs/:jobId/execution *)
Definition executionHandler (jobId : string) : M (Response ExecutionBody) :=
  job <- lookup_job jobId ;;
  if negb (truthy (Job.executionId job))
  then throw (createError "No execution information available for this job"
                          404 "NO_EXECUTION_INFO")
  else ret (mkResponse 200
              (mkExecutionBody jobId (execution_of job) (Job.status job)
                               (Job.createdAt job) (Job.updatedAt job))).

End Backend.

(* ================================================================== *)
(** ** Vocabulary of the statements *)
(* ================================================================== *)

(** The world in which the upload handler awaits the forwarder: after
    the first console line and [createJob]. *)
Definition before_forward (f : UploadedFile) (jobId : string) (w : World) : World :=
  snd ((console LLog (LogReceivedUpload (originalname f) (size f)) ;;;
        createJob jobId (originalname f)) w).

(** [w] after the events [evs], nothing else changed. *)
Definition with_events (w : World) (evs : list Event) : World :=
  mkWorld (store w) (files w) (clock w) (trace w ++ evs)%list.

(** The events a computation adds to the trace of [w]. *)
Definition added (w w' : World) : list Event :=
  drop (length (trace w)) (trace w').

(* ================================================================== *)
(** ** Sample data *)
(* ================================================================== *)

(** A forwarder that finds the webhook down. *)
Definition sample_forwarder (a : ForwardArgs) : M Ack.t :=
  throw (Error "connect ECONNREFUSED 127.0.0.1:5678").

Definition sample_file : UploadedFile :=
  mkUploadedFile "report.pdf" "tmp/3f9a" 2048.

Definition sample_world : World :=
  mkWorld ∅ {[ "tmp/3f9a" ]} 1700000000000 [].

Definition sample_done_job : Job.t :=
  Job.mk St_done "Report.PDF" 1700000000000 1700000005000
         (JStr "E1") (JStr "running") JUndefined JUndefined (JStr "production")
         (JStr "csv/job-1.csv") JUndefined JUndefined.

Definition sample_done_world : World :=
  mkWorld {[ "job-1" := sample_done_job ]} ∅ 1700000009000 [].

(** A done job whose completion carried no result key. *)
Definition sample_keyless_job : Job.t :=
  Job.mk St_done "Report.PDF" 1700000000000 1700000005000
         JUndefined JUndefined JUndefined JUndefined JUndefined
         JUndefined JUndefined JUndefined.

Definition sample_keyless_world : World :=
  mkWorld {[ "job-1" := sample_keyless_job ]} ∅ 1700000009000 [].

Definition sample_is_valid (id : string) : bool := starts_with "job-" id.

(* ================================================================== *)
(** ** middleware/rateLimiter.js: the limits read from the environment *)
(* ================================================================== *)

(** A number as [parseInt] returns it. *)
Inductive Num : Type := NaN | Int (n : Z).

(** What [getEnvVar] hands back to a limiter: the default as written (a
    string) or the parsed value. *)
Inductive ConfigValue : Type :=
| CStr (s : string)
| CNum (n : Num).

Definition config_truthy (v : ConfigValue) : bool :=
  match v with
  | CStr s => negb (String.eqb s "")
  | CNum NaN => false
  | CNum (Int n) => negb (n =? 0)
  end.

(** [a || b] *)
Definition or_else (a b : ConfigValue) : ConfigValue :=
  if config_truthy a then a else b.

(** [getEnvVar(name, defaultValue, parser)], lines 6-12. *)
Definition getEnvVar (env : gmap string string) (name : string)
    (defaultValue : ConfigValue) (parser : string -> ConfigValue) : ConfigValue :=
  let value := env !! name in
  match value with
  | None => defaultValue
  | Some v => if String.eqb v "" then defaultValue else parser v
  end.

Definition digit_value (c : ascii) : option Z :=
  let n := nat_of_ascii c in
  if (48 <=? n)%nat && (n <=? 57)%nat then Some (Z.of_nat (n - 48)) else None.

Fixpoint decimal_from (acc : Z) (s : string) : option Z :=
  match s with
  | EmptyString => Some acc
  | String c rest =>
      match digit_value c with
      | Some d => decimal_from (10 * acc + d) rest
      | None => None
      end
  end.

(** The number the limiter compares hits with. A default reaches it as
    the digit string of the source; [NaN] never does, being falsy under
    [||]. *)
Definition max_number (v : ConfigValue) : Z :=
  match v with
  | CNum (Int n) => n
  | CNum NaN => 0
  | CStr s => default 0 (decimal_from 0 s)
  end.

Section Limiters.

(** The built-in [parseInt] of one argument. *)
Variable parseInt : string -> Num.
(** [process.env] when the module is loaded. *)
Variable env : gmap string string.

(** [getEnvVar(name, dflt, parseInt) || fallback] *)
Definition limit_setting (name dflt : string) (fallback : Z) : ConfigValue :=
  or_else (getEnvVar env name (CStr dflt) (fun v => CNum (parseInt v)))
          (CNum (Int fallback)).

(** The limit a variable [name] with numeric default [dflt] puts in
    force. *)
Definition limit_in_force (name : string) (dflt : Z) : Z :=
  match env !! name with
  | None => dflt
  | Some v =>
      if String.eqb v "" then dflt
      else match parseInt v with
           | NaN => dflt
           | Int n => if n =? 0 then dflt else n
           end
  end.

(** A limiter without [skip] counts every request. *)
Definition uploadLimiter : LimiterOptions :=
  mkLimiter (60 * 60 * 1000)
    (max_number (limit_setting "RL_UPLOAD_MAX" "10" 10))
    "UPLOAD_RATE_LIMIT_EXCEEDED"
    (fun req => ip req +:+ "-upload") (fun _ => false).

Definition statusLimiter : LimiterOptions :=
  mkLimiter (10 * 1000)
    (max_number (limit_setting "RL_STATUS_MAX" "30" 30))
    "STATUS_RATE_LIMIT_EXCEEDED"
    (fun req => ip req +:+ "-status") (fun _ => false).

Definition downloadLimiter : LimiterOptions :=
  mkLimiter (60 * 1000)
    (max_number (limit_setting "RL_DOWNLOAD_MAX" "60" 60))
    "DOWNLOAD_RATE_LIMIT_EXCEEDED"
    (fun req => ip req +:+ "-download") (fun _ => false).

Definition listLimiter : LimiterOptions :=
  mkLimiter (60 * 1000)
    (max_number (limit_setting "RL_LIST_MAX" "120" 120))
    "LIST_RATE_LIMIT_EXCEEDED"
    (fun req => ip req +:+ "-list") (fun _ => false).

Definition deleteLimiter : LimiterOptions :=
  mkLimiter (60 * 60 * 1000)
    (max_number (limit_setting "RL_DELETE_MAX" "20" 20))
    "DELETE_RATE_LIMIT_EXCEEDED"
    (fun req => ip req +:+ "-delete") (fun _ => false).

(** The five limiters with the variable and the default of each. *)
Definition env_limiters : list (LimiterOptions * string * Z) :=
  [ (uploadLimiter, "RL_UPLOAD_MAX", 10);
    (statusLimiter, "RL_STATUS_MAX", 30);
    (downloadLimiter, "RL_DOWNLOAD_MAX", 60);
    (listLimiter, "RL_LIST_MAX", 120);
    (deleteLimiter, "RL_DELETE_MAX", 20) ].

End Limiters.

(* ================================================================== *)
(** ** routes/jobs.js: the listing for debugging *)
(* ================================================================== *)

(** [execution: executionStats] of lines 247-250. *)
Record ExecutionStats : Type := mkExecutionStats {
  withExecution : nat;
  withoutExecution : nat
}.

Record JobsListing : Type := mkJobsListing {
  listing_stats : JSValue;             (* ...stats *)
  listing_execution : ExecutionStats;
  listing_jobs : list (string * Job.t) (* { jobId, ...job } *)
}.

(** The handler of GET /api/jobs over what [getAllJobs()] (an array of
    [jobId, job] pairs) and [getStats()] return. *)
Definition listJobsHandler (allJobs : list (string * Job.t)) (stats : JSValue)
  : Response JobsListing :=
  let executionStats :=
    mkExecutionStats
      (length (filter (fun e => truthy (Job.executionId (snd e)) = true) allJobs))
      (length (filter (fun e => negb (truthy (Job.executionId (snd e))) = true) allJobs)) in
  mkResponse 200
    (mkJobsListing stats executionStats
       (map (fun e => (fst e, snd e)) allJobs)).

(** Line 241: the route exists unless NODE_ENV is exactly 'production'. *)
Definition list_route_registered (env : gmap string string) : bool :=
  negb (strict_eq (env !! "NODE_ENV") (Some "production")).

(* ================================================================== *)
(** ** The files router (src/unnamed/part_000) *)
(* ================================================================== *)

(** [hay.includes(needle)] *)
Fixpoint includes (needle hay : string) : bool :=
  String.prefix needle hay ||
  match hay with
  | EmptyString => false
  | String _ rest => includes needle rest
  end.

(** A file as the storage statistics list it. *)
Record StoredFile : Type := mkStoredFile {
  file_id : string;
  file_filename : string;
  file_size : Z;
  file_uploadDate : Z;     (* a valid date, in ms *)
  file_jobId : string
}.

Record StorageStats : Type := mkStorageStats {
  stats_files : list StoredFile;
  totalFiles : Z;
  totalSize : Z
}.

(** What a call throws or a promise rejects with: an Error object, or a
    value of another kind. *)
Inductive Thrown : Type :=
| ThrownError (e : Exn)
| ThrownValue (v : JSValue).

(** A promise once it has settled. *)
Inductive Settled (A : Type) : Type :=
| Resolved (a : A)
| Rejected (reason : Thrown).
Arguments Resolved {A} a.
Arguments Rejected {A} reason.

(** [error.message] *)
Definition message_of (error : Thrown) : Outcome JSValue :=
  match error with
  | ThrownError e => Return (JStr (message e))
  | ThrownValue v => get_prop v "message"
  end.

(** [m.includes(needle)] on a value: strings and arrays have the method;
    on [undefined] and [null] reading it throws, and on the other values
    (plain data, which holds no function) calling it does. *)
Definition includes_method (m : JSValue) (needle : string) : Outcome bool :=
  match m with
  | JStr s => Return (includes needle s)
  | JArr items =>
      Return (existsb (fun v => match v with
                                | JStr s => String.eqb s needle
                                | _ => false
                                end) items)
  | JUndefined | JNull =>
      Throw (TypeError ("Cannot read properties of " +:+ default "" (nullish_name m)
                          +:+ " (reading 'includes')"))
  | JBool _ | JNum _ | JObj _ =>
      Throw (TypeError "error.message.includes is not a function")
  end.


(** How the reading of a stream ends once it is piped into the response:
    it ends, or it emits 'error' with an Error; [headersSent] is what
    [res.headersSent] reads when the handler of that event runs. *)
Inductive StreamEnd : Type :=
| StreamEnds
| StreamFails (error : Exn) (headersSent : bool).

(** What [getCSVStream] resolves to. *)
Record CSVStream : Type := mkCSVStream {
  stream : StreamEnd;      (* the readable stream, by how its reading ends *)
  csv_filename : string;
  csv_contentType : string;
  csv_size : Z
}.

Inductive FilesLogMsg : Type :=
| LogServing (filename : string) (size : Z)
| LogStreamError (msg : string)
| LogServeFailed (msg : JSValue)
| LogFilesResponse (processingTime : Z) (count : nat)
| LogListFailed (msg : string)
| LogFileDeleted (filename fileId : string)
| LogDeleteFailed (fileId msg : string).

(** Calls to the storage collaborator and console lines, in order. *)
Inductive FilesEvent : Type :=
| MongoGetCSVStream (fileId : string)
| MongoGetStats
| MongoDeleteCSV (jobId : string)
| FilesConsole (lvl : Level) (m : FilesLogMsg).

Definition is_mongo (ev : FilesEvent) : bool :=
  match ev with FilesConsole _ _ => false | _ => true end.

Definition dquote : string := String (ascii_of_nat 34) EmptyString.

(** One entry of the listing, lines 59-68. *)
Record FileEntry : Type := mkFileEntry {
  fe_id : string;
  fe_filename : string;
  fe_size : Z;
  fe_uploadDate : Z;
  fe_jobId : string;
  fe_downloadUrl : string;
  fe_formattedSize : string;
  fe_formattedDate : string
}.

(** [entries.sort((a, b) => new Date(b.uploadDate) - new Date(a.uploadDate))]:
    the sort is stable and the comparator orders valid dates, so the
    result is the stable order by decreasing date; an insertion from the
    right computes it. *)
Fixpoint insert_by_date (x : FileEntry) (l : list FileEntry) : list FileEntry :=
  match l with
  | [] => [x]
  | y :: rest =>
      if fe_uploadDate y <=? fe_uploadDate x then x :: y :: rest
      else y :: insert_by_date x rest
  end.

Definition sort_newest_first (l : list FileEntry) : list FileEntry :=
  foldr insert_by_date [] l.

(** The order of the listing: [a] may stand before [b]. *)
Definition newer_or_same (a b : FileEntry) : Prop :=
  fe_uploadDate b <= fe_uploadDate a.

Record FilesListing : Type := mkFilesListing {
  fl_headers : list (string * string);
  fl_files : list FileEntry;
  fl_totalFiles : Z;
  fl_totalSize : Z;
  fl_formattedTotalSize : string;
  fl_responseTime : Z
}.

(** What the client of the download route is sent when the handler does
    not throw. *)
Inductive DownloadReply : Type :=
| FileSent (headers : list (string * JSValue))      (* the stream, piped to its end *)
| ReadError (status : Z) (error : string)           (* res.status(500).json({ error }) *)
| Interrupted (headers : list (string * JSValue)).  (* headers out, then the error *)

Record DeleteBody : Type := mkDeleteBody {
  del_success : bool;
  del_message : string;
  del_fileId : string;
  del_filename : string
}.

Section FilesRouter.

(** services/mongoClient, as the router uses it. *)
Variable getCSVStream : string -> Settled CSVStream.
Variable getStats : Outcome StorageStats.
Variable deleteCSV : string -> Outcome JSValue.
(** [res.setHeader(name, value)]: Node refuses some values by throwing. *)
Variable setHeader : string -> JSValue -> option Exn.
(** [formatFileSize] (floating point) and [Date.prototype.toLocaleString]. *)
Variable formatFileSize : Z -> string.
Variable toLocaleString : Z -> string.

(** The four [res.setHeader] calls of lines 24-27, up to the first that
    throws. *)
Fixpoint set_headers (hs : list (string * JSValue)) : Outcome unit :=
  match hs with
  | [] => Return tt
  | (name, value) :: rest =>
      match setHeader name value with
      | Some e => Throw e
      | None => set_headers rest
      end
  end.

Definition download_headers (s : CSVStream) : list (string * JSValue) :=
  [ ("Content-Type", JStr (csv_contentType s));
    ("Content-Disposition",
     JStr ("attachment; filename=" +:+ dquote +:+ csv_filename s +:+ dquote));
    ("Content-Length", JNum (csv_size s));
    ("Cache-Control", JStr "private, max-age=3600") ].

(** The handler of the stream's 'error' event, lines 30-35. *)
Definition on_stream_error (headers : list (string * JSValue))
    (error : Exn) (headersSent : bool) : DownloadReply * list FilesEvent :=
  (if negb headersSent then ReadError 500 "File read error" else Interrupted headers,
   [FilesConsole LError (LogStreamError (message error))]).

(** The [catch] block, lines 40-46: [error.message] is read for the
    console line, then again for [includes]. *)
Definition download_catch (error : Thrown) : Outcome DownloadReply * list FilesEvent :=
  match message_of error with
  | Throw typeError => (Throw typeError, [])
  | Return msg =>
      (match includes_method msg "not found" with
       | Throw typeError => Throw typeError
       | Return true => Throw (createError "File not found" 404 "FILE_NOT_FOUND")
       | Return false => Throw (createError "Failed to serve file" 500 "FILE_SERVE_ERROR")
       end,
       [FilesConsole LError (LogServeFailed msg)])
  end.

(** GET /api/files/download/:fileId, lines 10-47, together with what the
    piped stream does afterwards: the value returned is what the client
    is sent. *)
Definition downloadFileHandler (fileId : string)
  : Outcome DownloadReply * list FilesEvent :=
  if negb (truthy (JStr fileId))
  then (Throw (createError "File ID is required" 400 "MISSING_FILE_ID"), [])
  else
    let '(attempt, events) :=
      match getCSVStream fileId with
      | Rejected reason => (inr reason, [MongoGetCSVStream fileId])
      | Resolved s =>
          let events := [MongoGetCSVStream fileId;
                         FilesConsole LLog (LogServing (csv_filename s) (csv_size s))] in
          match set_headers (download_headers s) with
          | Throw e => (inr (ThrownError e), events)
          | Return _ =>
              match stream s with
              | StreamEnds => (inl (FileSent (download_headers s)), events)
              | StreamFails error headersSent =>
                  let '(reply, logged) :=
                    on_stream_error (download_headers s) error headersSent in
                  (inl reply, (events ++ logged)%list)
              end
          end
      end in
    match attempt with
    | inl reply => (Return reply, events)
    | inr error =>
        let '(thrown, logged) := download_catch error in
        (thrown, (events ++ logged)%list)
    end.

Definition file_entry (file : StoredFile) : FileEntry :=
  mkFileEntry (file_id file) (file_filename file) (file_size file)
    (file_uploadDate file) (file_jobId file)
    ("/api/files/download/" +:+ file_id file)
    (formatFileSize (file_size file))
    (toLocaleString (file_uploadDate file)).

(** GET /api/files, lines 52-89; [startTime] and [endTime] are the two
    readings of [Date.now()]. The two headers set there are plain ASCII. *)
Definition listFilesHandler (startTime endTime : Z)
  : Outcome FilesListing * list FilesEvent :=
  match getStats with
  | Throw error =>
      (Throw (createError "Failed to retrieve files" 500 "FILES_LIST_ERROR"),
       [MongoGetStats; FilesConsole LError (LogListFailed (message error))])
  | Return stats =>
      let files := sort_newest_first (map file_entry (stats_files stats)) in
      let processingTime := endTime - startTime in
      (Return (mkFilesListing
                 [ ("Cache-Control", "private, max-age=60");
                   ("X-Response-Time", string_of_Z processingTime +:+ "ms") ]
                 files (totalFiles stats) (totalSize stats)
                 (formatFileSize (totalSize stats)) processingTime),
       [MongoGetStats;
        FilesConsole LLog (LogFilesResponse processingTime (length files))])
  end.

(** DELETE /api/files/:fileId, lines 107-146. The errors thrown inside
    the [try] block are caught by its own [catch]. *)
Definition deleteFileHandler (fileId : string)
  : Outcome DeleteBody * list FilesEvent :=
  if negb (truthy (JStr fileId))
  then (Throw (createError "File ID is required" 400 "MISSING_FILE_ID"), [])
  else
    let '(attempt, events) :=
      match getStats with
      | Throw e => (Throw e, [MongoGetStats])
      | Return stats =>
          match find (fun f => String.eqb (file_id f) fileId) (stats_files stats) with
          | None =>
              (Throw (createError "File not found" 404 "FILE_NOT_FOUND"), [MongoGetStats])
          | Some file =>
              let events := [MongoGetStats; MongoDeleteCSV (file_jobId file)] in
              match deleteCSV (file_jobId file) with
              | Throw e => (Throw e, events)
              | Return deleted =>
                  if negb (truthy deleted)
                  then (Throw (createError "Failed to delete file" 500 "DELETE_FAILED"),
                        events)
                  else (Return (mkDeleteBody true "File deleted successfully"
                                             fileId (file_filename file)),
                        (events ++ [FilesConsole LLog
                                      (LogFileDeleted (file_filename file) fileId)])%list)
              end
          end
      end in
    match attempt with
    | Return r => (Return r, events)
    | Throw error =>
        (Throw (if includes "not found" (message error)
                then createError "File not found" 404 "FILE_NOT_FOUND"
                else createError "Failed to delete file" 500 "DELETE_ERROR"),
         (events ++ [FilesConsole LError (LogDeleteFailed fileId (message error))])%list)
    end.

End FilesRouter.



(** The errors the per-job routes let out. *)
Definition job_routes_errors : list Exn :=
  [ createError "Invalid job ID format" 400 "INVALID_JOB_ID";
    createError "Job not found" 404 "JOB_NOT_FOUND";
    createError "Job not completed yet" 400 "JOB_NOT_READY";
    createError "CSV file not available" 500 "CSV_NOT_AVAILABLE";
    createError "Failed to generate download URL" 500 "DOWNLOAD_URL_ERROR";
    createError "No execution information available for this job" 404 "NO_EXECUTION_INFO" ].


(** Membership in a list written out. *)
Ltac in_list := repeat first [apply list_elem_of_here | apply list_elem_of_further].


(** Sample data of the files router and the limiters. *)
Definition sample_files : list StoredFile :=
  [ mkStoredFile "f1" "a.csv" 100 1000 "job-1";
    mkStoredFile "f2" "b.csv" 200 3000 "job-2";
    mkStoredFile "f3" "c.csv" 300 3000 "job-3";
    mkStoredFile "f2" "shadow.csv" 1 2000 "job-9" ].

Definition sample_stats : StorageStats := mkStorageStats sample_files 4 601.

(** [parseInt] on plain decimal digits, enough for the samples. *)
Definition sample_parseInt (s : string) : Num :=
  match s with
  | EmptyString => NaN
  | _ => match decimal_from 0 s with Some n => Int n | None => NaN end
  end.

(* ================================================================== *)
(** ** The Job Store's state machine *)
(* ================================================================== *)

Lemma completeJob_other (id id' : string) ref now (s : gmap string Job.t) :
  id <> id' -> snd (jobStore.completeJob id ref now s) !! id' = s !! id'.
Proof.
  intros Hne. unfold jobStore.completeJob.
  destruct (s !! id) as [j|]; [|reflexivity].
  destruct (terminal (Job.status j)); simpl; [reflexivity|].
  by rewrite lookup_insert_ne.
Qed.

Lemma failJob_other (id id' : string) reason now (s : gmap string Job.t) :
  id <> id' -> snd (jobStore.failJob id reason now s) !! id' = s !! id'.
Proof.
  intros Hne. unfold jobStore.failJob.
  destruct (s !! id) as [j|]; [|reflexivity].
  destruct (terminal (Job.status j)); simpl; [reflexivity|].
  by rewrite lookup_insert_ne.
Qed.

Lemma completeJob_terminal (id : string) ref now (s : gmap string Job.t) j :
  s !! id = Some j -> terminal (Job.status j) = true ->
  jobStore.completeJob id ref now s = (false, s).
Proof. intros Hj Ht. unfold jobStore.completeJob. by rewrite Hj, Ht. Qed.

Lemma failJob_terminal (id : string) reason now (s : gmap string Job.t) j :
  s !! id = Some j -> terminal (Job.status j) = true ->
  jobStore.failJob id reason now s = (false, s).
Proof. intros Hj Ht. unfold jobStore.failJob. by rewrite Hj, Ht. Qed.

Lemma apply_keeps_terminal (c : jobStore.Call) (id : string)
    (s : gmap string Job.t) j :
  s !! id = Some j -> terminal (Job.status j) = true ->
  jobStore.apply c s !! id = Some j.
Proof.
  intros Hj Ht. destruct c as [id' ref now | id' reason now]; simpl.
  - destruct (decide (id' = id)) as [->|Hne].
    + by rewrite (completeJob_terminal _ _ _ _ _ Hj Ht).
    + by rewrite completeJob_other.
  - destruct (decide (id' = id)) as [->|Hne].
    + by rewrite (failJob_terminal _ _ _ _ _ Hj Ht).
    + by rewrite failJob_other.
Qed.

Lemma apply_allowed (c : jobStore.Call) (id : string) (s : gmap string Job.t) :
  jobStore.allowed (jobStore.status_of id s) (jobStore.status_of id (jobStore.apply c s)).
Proof.
  unfold jobStore.allowed, jobStore.status_of.
  destruct c as [id' ref now | id' reason now]; simpl.
  - destruct (decide (id' = id)) as [->|Hne]; [|left; by rewrite completeJob_other].
    unfold jobStore.completeJob.
    destruct (s !! id) as [j|] eqn:Hj; [|left; simpl; by rewrite Hj].
    destruct (Job.status j) eqn:Hs; simpl; rewrite ?Hj; simpl; rewrite ?Hs; auto.
    right. rewrite lookup_insert_eq. simpl. auto.
  - destruct (decide (id' = id)) as [->|Hne]; [|left; by rewrite failJob_other].
    unfold jobStore.failJob.
    destruct (s !! id) as [j|] eqn:Hj; [|left; simpl; by rewrite Hj].
    destruct (Job.status j) eqn:Hs; simpl; rewrite ?Hj; simpl; rewrite ?Hs; auto.
    right. rewrite lookup_insert_eq. simpl. auto.
Qed.

Lemma run_snoc (cs : list jobStore.Call) c (s : gmap string Job.t) :
  jobStore.run (cs ++ [c]) s = jobStore.apply c (jobStore.run cs s).
Proof. unfold jobStore.run. by rewrite fold_left_app. Qed.

Lemma run_keeps_terminal (cs : list jobStore.Call) (id : string)
    (s : gmap string Job.t) j :
  s !! id = Some j -> terminal (Job.status j) = true ->
  jobStore.run cs s !! id = Some j.
Proof.
  revert s. induction cs as [|c cs IH]; intros s Hj Ht; [exact Hj|].
  simpl. apply IH; [|exact Ht]. by apply apply_keeps_terminal.
Qed.

(** C1. For every store, job id and sequence of completeJob/failJob calls
    (any interleaving of duplicate or racing callbacks is such a sequence):
    each further call changes the job's status only from pending to done or
    from pending to error, or not at all; a job in a terminal state keeps
    its whole record whatever calls follow; and a second completeJob, with
    the same or another resultRef, is reported as ignored and leaves the
    store exactly as the first call left it. *)
Theorem jobStore_transitions_monotone (s : gmap string Job.t) (id : string) :
  (forall cs c,
      jobStore.allowed (jobStore.status_of id (jobStore.run cs s))
                       (jobStore.status_of id (jobStore.run (cs ++ [c]) s)))
  /\ (forall cs j,
         s !! id = Some j -> terminal (Job.status j) = true ->
         jobStore.run cs s !! id = Some j)
  /\ (forall j ref now,
         s !! id = Some j -> Job.status j = St_done ->
         jobStore.completeJob id ref now s = (false, s))
  /\ (forall ref1 now1 ref2 now2,
         let s1 := snd (jobStore.completeJob id ref1 now1 s) in
         jobStore.completeJob id ref2 now2 s1 = (false, s1)).
Proof.
  repeat split.
  - intros cs c. rewrite run_snoc. apply apply_allowed.
  - intros cs j. apply run_keeps_terminal.
  - intros j ref now Hj Hs. apply (completeJob_terminal _ _ _ _ j Hj).
    by rewrite Hs.
  - intros ref1 now1 ref2 now2 s1. subst s1.
    unfold jobStore.completeJob at 2 3.
    destruct (s !! id) as [j|] eqn:Hj.
    + destruct (terminal (Job.status j)) eqn:Ht; simpl.
      * by apply (completeJob_terminal _ _ _ _ j).
      * eapply completeJob_terminal; [apply lookup_insert_eq|reflexivity].
    + simpl. unfold jobStore.completeJob. by rewrite Hj.
Qed.

(* ================================================================== *)
(** ** The forwarder's file does not compile *)
(* ================================================================== *)

Lemma scan_block_declared inside (declared : list string) x line mid post :
  x ∈ declared ->
  is_Some (scan_block inside declared (mid ++ SConst line x :: post)).
Proof.
  revert declared. induction mid as [|s mid IH]; intros declared Hin; simpl.
  - rewrite bool_decide_eq_true_2 by exact Hin. by eexists.
  - destruct s as [l y| | | | |]; try (destruct (inside _); [by eexists|by apply IH]).
    destruct (bool_decide (y ∈ declared)); [by eexists|].
    apply IH. by apply list_elem_of_further.
Qed.

(** A block that declares a name twice is refused, wherever in the block
    the two declarations stand. *)
Lemma scan_block_twice inside (declared : list string) pre l1 l2 x mid post :
  is_Some (scan_block inside declared
             (pre ++ SConst l1 x :: mid ++ SConst l2 x :: post)).
Proof.
  revert declared. induction pre as [|s pre IH]; intros declared; simpl.
  - destruct (bool_decide (x ∈ declared)); [by eexists|].
    apply scan_block_declared, list_elem_of_here.
  - destruct s as [l y| | | | |]; try (destruct (inside _); [by eexists|by apply IH]).
    destruct (bool_decide (y ∈ declared)); [by eexists|]. apply IH.
Qed.

(** A block that is accepted declares each of its names once, and none
    that was declared before it. *)
Lemma scan_block_None inside (declared : list string) body :
  scan_block inside declared body = None ->
  NoDup (const_names body) /\ forall x, x ∈ const_names body -> x ∉ declared.
Proof.
  revert declared. induction body as [|s body IH]; intros declared; simpl.
  - intros _. split; [constructor|]. intros x Hx. by apply elem_of_nil in Hx.
  - destruct s as [l y| | | | |];
      try (destruct (inside _); [discriminate|by apply IH]).
    destruct (bool_decide (y ∈ declared)) eqn:Hy; [discriminate|].
    apply bool_decide_eq_false in Hy.
    intros Hscan. destruct (IH _ Hscan) as [Hnodup Hfresh]. split.
    + constructor; [|exact Hnodup].
      intros Hin. apply (Hfresh y Hin), list_elem_of_here.
    + intros x Hx. apply elem_of_cons in Hx as [->|Hx]; [exact Hy|].
      intros Hdecl. by apply (Hfresh x Hx), list_elem_of_further.
Qed.

Lemma require_refused {A} (source : list TopLevel) (body : M A) (e : Exn) (w : World) :
  compile source = Some e -> require source body w = (Throw e, w).
Proof. intros Hc. unfold require. by rewrite Hc. Qed.

Lemma n8nClient_compile :
  compile n8nClient_source = Some (already_declared "fileType").
Proof. vm_compute. reflexivity. Qed.

(** C2 (code defect). The [try] block of [forwardToN8n] declares
    [fileType] on line 64 and again on line 78, with the two statements
    that call [mimetype.startsWith]. Node therefore refuses the file when
    it is required: what is thrown is a SyntaxError, before any statement
    of the file has run, so no call of [forwardToN8n] is ever made and
    none raises the TypeError of the claim. *)
Theorem n8nClient_fileType_declared_twice :
  const_names forwardToN8n_try
  = ["formData"; "contentType"; "fileExtension"; "csvFileName"; "fileStream";
     "fileType"; "response"; "fileType"; "responseData"]
  /\ (exists pre mid post,
        forwardToN8n_try
        = (pre ++ SConst 64 "fileType" :: mid ++ SConst 78 "fileType" :: post)%list)
  /\ early_error (STry 38 forwardToN8n_try "error" forwardToN8n_catch) = Some "fileType"
  /\ compile n8nClient_source = Some (already_declared "fileType")
  /\ forall (A : Type) (body : M A) (w : World),
       require n8nClient_source body w
       = (Throw (SyntaxError "Identifier 'fileType' has already been declared"), w).
Proof.
  split; [reflexivity|]. split.
  - exists (take 12 forwardToN8n_try), [SExpr 65; SConst 68 "response"],
      (drop 16 forwardToN8n_try). reflexivity.
  - split; [vm_compute; reflexivity|]. split; [exact n8nClient_compile|].
    intros A body w. exact (require_refused _ body _ w n8nClient_compile).
Qed.

(** C3 (code defect). Whatever a caller goes on to do with the client it
    requires, in particular call [forwardToN8n], what reaches it is the
    SyntaxError of the file: no forwarding failure (no forwarding prefix,
    no code, no status), and thrown before anything has run. The [catch]
    block of lines 105-122, which is to surface the failures, is well
    formed by itself and is never entered. *)
Theorem n8nClient_failure_is_no_forwarding_failure
    (A B : Type) (body : M A) (use : A -> M B) (w : World) :
  let r := (n8nClient <- require n8nClient_source body ;; use n8nClient) w in
  scan_block early_error ["error"] forwardToN8n_catch = None
  /\ snd r = w
  /\ exists e, fst r = Throw e /\ exn_name e = "SyntaxError"
               /\ starts_with "n8n forwarding failed: " (message e) = false
               /\ code e = None /\ statusCode e = None.
Proof.
  intros r. subst r. unfold bind.
  rewrite (require_refused _ body _ w n8nClient_compile).
  split; [vm_compute; reflexivity|]. split; [reflexivity|].
  eexists. split; [reflexivity|]. by repeat split.
Qed.

(** C8 (code defect). The statements that read the acknowledgment,
    lines 82-103, stand in the [try] block behind the second declaration
    of [fileType]. Their own block (lines 83-97) is well formed, but the
    file is refused as a whole: a call through the required client returns
    no acknowledgment, whatever the endpoint would answer, and adds no
    event, so no request is issued either. *)
Theorem n8nClient_returns_no_acknowledgment
    (body : M (ForwardArgs -> M Ack.t)) (a : ForwardArgs) (w : World) :
  let r := (forwardToN8n <- require n8nClient_source body ;; forwardToN8n a) w in
  (exists pre,
     forwardToN8n_try
     = (pre ++ [ SConst 78 "fileType"; SExpr 79; SConst 82 "responseData";
                 SIf 83 [ SConst 84 "executionInfo"; SExpr 85; SReturn 87 ];
                 SReturn 99 ])%list)
  /\ early_error (SIf 83 [ SConst 84 "executionInfo"; SExpr 85; SReturn 87 ]) = None
  /\ fst r = Throw (already_declared "fileType")
  /\ trace (snd r) = trace w.
Proof.
  intros r. subst r. unfold bind.
  rewrite (require_refused _ body _ w n8nClient_compile).
  split; [exists (take 15 forwardToN8n_try); reflexivity|].
  split; [vm_compute; reflexivity|]. by split.
Qed.

Section Properties.

Variable isValidJobId : string -> bool.
Variable generateDownloadUrl : string -> Outcome string.
Variable env : gmap string string.

Lemma emit_eq (ev : Event) (w : World) : emit ev w = (Return tt, with_events w [ev]).
Proof. reflexivity. Qed.

Lemma with_events_app (w : World) (a b : list Event) :
  with_events (with_events w a) b = with_events w (a ++ b).
Proof. unfold with_events. simpl. by rewrite app_assoc. Qed.

(* ================================================================== *)
(** ** The upload handler around the forwarder *)
(* ================================================================== *)

Lemma before_forward_fresh f jobId (w : World) :
  store w !! jobId = None ->
  before_forward f jobId w =
  mkWorld (<[jobId := jobStore.newJob (originalname f) (clock w)]> (store w))
          (files w) (clock w)
          (trace w ++ [EvConsole LLog (LogReceivedUpload (originalname f) (size f));
                       EvStore (CallCreateJob jobId (originalname f))]).
Proof.
  intros Hfresh.
  unfold before_forward, createJob, jobStore.createJob, console, bind, emit.
  simpl. rewrite Hfresh. simpl. by rewrite <- app_assoc.
Qed.

Lemma uploadHandler_with_fresh fwd f jobId (w : World) :
  store w !! jobId = None ->
  uploadHandler_with fwd (Some f) jobId w =
  match fwd (mkForwardArgs (path f) (originalname f) jobId None)
            (before_forward f jobId w) with
  | (Return ack, w2) =>
      try_catch (upload_after_forward f jobId ack) (upload_catch f jobId) w2
  | (Throw e, w2) => upload_catch f jobId e w2
  end.
Proof.
  intros Hfresh. rewrite before_forward_fresh by exact Hfresh.
  unfold uploadHandler_with, createJob, jobStore.createJob, console.
  unfold bind at 1 2 3 4. unfold emit, try_catch. simpl. rewrite Hfresh. simpl.
  rewrite <- app_assoc. simpl.
  destruct (fwd _ _) as [[ack|e] w2]; reflexivity.
Qed.

Lemma cleanup_eq path warning (w : World) :
  cleanup path warning w =
  (Return tt,
   if decide (path ∈ files w)
   then mkWorld (store w) (files w ∖ {[path]}) (clock w) (trace w ++ [EvUnlink path])
   else with_events w [EvUnlink path;
                       EvConsole LWarn (warning (message (ENOENT path)))]).
Proof.
  unfold cleanup, try_catch, unlinkSync, bind, console, emit, with_events. simpl.
  destruct (decide (path ∈ files w)); simpl; [reflexivity|].
  by rewrite <- app_assoc.
Qed.

Lemma cleanup_frame path warning (w : World) :
  let w' := snd (cleanup path warning w) in
  store w' = store w /\ clock w' = clock w /\ (path ∉ files w') /\
  exists evs, trace w' = (trace w ++ evs)%list /\ (EvUnlink path ∈ evs) /\
    (path ∉ files w -> EvConsole LWarn (warning (message (ENOENT path))) ∈ evs).
Proof.
  rewrite cleanup_eq. simpl.
  destruct (decide (path ∈ files w)) as [Hin|Hout]; simpl.
  - split; [reflexivity|]. split; [reflexivity|]. split.
    + rewrite elem_of_difference, elem_of_singleton. intros [_ Hne]. by apply Hne.
    + exists [EvUnlink path]. split; [reflexivity|]. split.
      * apply list_elem_of_here.
      * intros Hout. by destruct Hout.
  - split; [reflexivity|]. split; [reflexivity|]. split; [exact Hout|].
    eexists. split; [reflexivity|]. split.
    + apply list_elem_of_here.
    + intros _. apply list_elem_of_further, list_elem_of_here.
Qed.

Lemma upload_catch_eq f jobId e (w : World) :
  jobId <> "" ->
  upload_catch f jobId e w =
  let w1 := snd (cleanup (path f) LogCleanupFailedAfterError w) in
  (Throw e,
   mkWorld (snd (jobStore.failJob jobId (JStr (message e)) (clock w1) (store w1)))
           (files w1) (clock w1)
           (trace w1 ++ [EvStore (CallFailJob jobId (JStr (message e)))])).
Proof.
  intros Hid. unfold upload_catch. unfold bind at 1.
  rewrite cleanup_eq. simpl.
  destruct (String.eqb_spec jobId ""); [contradiction|]. simpl.
  unfold failJob, bind, emit, set_store, throw. simpl. reflexivity.
Qed.

Lemma upload_after_forward_eq f jobId ack (w : World) :
  upload_after_forward f jobId ack w =
  let r := ExecutionRecord.mk (Ack.executionId ack) (Ack.executionStatus ack)
             (Ack.message ack) (Ack.webhookUrl ack) (Ack.executionMode ack) in
  let w0 := if truthy (Ack.executionId ack)
            then mkWorld (jobStore.updateExecutionDetails jobId r (clock w) (store w))
                   (files w) (clock w)
                   (trace w ++ [EvStore (CallUpdateExecutionDetails jobId r);
                                EvConsole LLog
                                  (LogExecutionTracking (Ack.executionId ack) jobId)])
            else w in
  let w1 := snd (cleanup (path f) LogCleanupFailed w0) in
  (Return (mkResponse 201
             (mkUploadBody jobId "PDF uploaded and processing started" (originalname f)
                (if truthy (Ack.executionId ack)
                 then Some (mkExecutionView (Ack.executionId ack)
                              (Ack.executionStatus ack) (Ack.message ack)
                              (Ack.executionMode ack) JUndefined)
                 else None))),
   with_events w1 [EvConsole LLog (LogJobCreated jobId (originalname f))]).
Proof.
  unfold upload_after_forward. unfold bind at 1.
  destruct (truthy (Ack.executionId ack)).
  - unfold updateExecutionDetails, console, bind at 2 3. unfold emit at 1 2.
    unfold set_store. simpl. rewrite <- app_assoc. simpl.
    unfold bind at 1. rewrite cleanup_eq. reflexivity.
  - simpl. unfold bind at 1. rewrite cleanup_eq. reflexivity.
Qed.

Lemma uploadHandler_with_taken fwd f jobId (w : World) j :
  store w !! jobId = Some j ->
  uploadHandler_with fwd (Some f) jobId w =
  upload_catch f jobId (Error ("Job " +:+ jobId +:+ " already exists"))
    (with_events w [EvConsole LLog (LogReceivedUpload (originalname f) (size f));
                    EvStore (CallCreateJob jobId (originalname f))]).
Proof.
  intros Htaken.
  unfold uploadHandler_with, createJob, jobStore.createJob, console.
  unfold bind at 1 2 3 4. unfold emit, try_catch. simpl. rewrite Htaken. simpl.
  unfold with_events. simpl. by rewrite <- app_assoc.
Qed.

Lemma failJob_pending_lookup jobId reason now (s : gmap string Job.t) j :
  s !! jobId = Some j -> Job.status j = St_pending ->
  exists j', snd (jobStore.failJob jobId reason now s) !! jobId = Some j' /\
             Job.status j' = St_error /\ Job.error j' = reason /\
             Job.filenamePdf j' = Job.filenamePdf j.
Proof.
  intros Hj Hs. unfold jobStore.failJob. rewrite Hj, Hs. simpl.
  eexists. rewrite lookup_insert_eq. split; [reflexivity|]. by simpl.
Qed.

(** The handler on a fresh id, by what the awaited forwarder does. *)
Lemma uploadHandler_fresh_cases
    (fwd : ForwardArgs -> M Ack.t) (f : UploadedFile) (jobId : string) (w : World) :
  jobId <> "" -> store w !! jobId = None ->
  let w1 := before_forward f jobId w in
  let fwd_result := fwd (mkForwardArgs (path f) (originalname f) jobId None) w1 in
  let w2 := snd fwd_result in
  let r := uploadHandler_with fwd (Some f) jobId w in
  (path f ∉ files (snd r)) /\
  exists evs,
    trace (snd r) = (trace w2 ++ evs)%list /\
    (EvUnlink (path f) ∈ evs) /\
    match fst fwd_result with
    | Throw e =>
        fst r = Throw e /\
        (EvStore (CallFailJob jobId (JStr (message e))) ∈ evs) /\
        store (snd r)
        = snd (jobStore.failJob jobId (JStr (message e)) (clock w2) (store w2)) /\
        (path f ∉ files w2 ->
         EvConsole LWarn (LogCleanupFailedAfterError (message (ENOENT (path f)))) ∈ evs) /\
        (store w2 = store w1 ->
         exists j, store (snd r) !! jobId = Some j /\
                   Job.status j = St_error /\
                   Job.error j = JStr (message e) /\
                   Job.filenamePdf j = originalname f)
    | Return ack =>
        (exists body, fst r = Return (mkResponse 201 body)) /\
        (path f ∉ files w2 ->
         EvConsole LWarn (LogCleanupFailed (message (ENOENT (path f)))) ∈ evs)
    end.
Proof.
  intros Hid Hfresh w1 fwd_result w2 r. subst r w2 fwd_result w1.
  rewrite (uploadHandler_with_fresh fwd f jobId w Hfresh).
  destruct (fwd _ (before_forward f jobId w)) as [[ack|e] w2] eqn:Hfwd; simpl.
  - unfold try_catch. rewrite upload_after_forward_eq. simpl.
    match goal with
    | |- context [cleanup ?p ?k ?w0] =>
        destruct (cleanup_frame p k w0) as (Hs & Hc & Hgone & evs & Ht & Hin & Hwarn);
        assert (files w0 = files w2) as Hfiles
          by (destruct (truthy (Ack.executionId ack)); reflexivity);
        assert (exists pre, trace w0 = (trace w2 ++ pre)%list) as [pre Hpre]
          by (destruct (truthy (Ack.executionId ack));
              [eexists; reflexivity | exists []; by rewrite app_nil_r])
    end.
    split; [exact Hgone|].
    eexists. rewrite Ht, Hpre, <- !app_assoc. split; [reflexivity|]. split; [|split].
    + apply elem_of_app. right. apply elem_of_app. by left.
    + eexists. reflexivity.
    + intros Hout. apply elem_of_app. right. apply elem_of_app. left.
      apply Hwarn. by rewrite Hfiles.
  - rewrite (upload_catch_eq f jobId e w2 Hid). simpl.
    destruct (cleanup_frame (path f) LogCleanupFailedAfterError w2)
      as (Hs & Hc & Hgone & evs & Ht & Hin & Hwarn).
    split; [exact Hgone|].
    eexists. rewrite Ht, <- app_assoc. split; [reflexivity|].
    split; [apply elem_of_app; by left|].
    split; [reflexivity|].
    split; [apply elem_of_app; right; apply list_elem_of_here|].
    split; [by rewrite Hs, Hc|].
    split; [intros Hout; apply elem_of_app; left; by apply Hwarn|].
    intros Hstore. rewrite Hs, Hc, Hstore.
    rewrite (before_forward_fresh f jobId w Hfresh). simpl.
    destruct (failJob_pending_lookup jobId (JStr (message e)) (clock w2)
                (<[jobId := jobStore.newJob (originalname f) (clock w)]> (store w))
                (jobStore.newJob (originalname f) (clock w)))
      as (j' & Hj' & Hst & Herr & Hname);
      [apply lookup_insert_eq | reflexivity |].
    exists j'. by repeat split.
Qed.

(** C4. Take an upload with a file, a non-empty job id, and any
    forwarder. On every exit path the handler attempts [fs.unlinkSync] on
    the temporary file, and the file is gone afterwards; a failing unlink
    only adds a console warning and changes neither the answer nor the
    rethrown failure. For a fresh id: if the forwarder throws [e], the
    handler calls [failJob(jobId, e.message)] and rethrows [e] itself, and
    (the forwarder having left the store alone) the job ends in state
    error with that message; if the forwarder returns, the handler
    answers 201. *)
Theorem uploadHandler_failure_and_cleanup
    (fwd : ForwardArgs -> M Ack.t) (f : UploadedFile) (jobId : string) (w : World) :
  jobId <> "" ->
  let r := uploadHandler_with fwd (Some f) jobId w in
  (path f ∉ files (snd r)) /\
  (EvUnlink (path f) ∈ trace (snd r)) /\
  (store w !! jobId = None ->
   let w1 := before_forward f jobId w in
   let fwd_result := fwd (mkForwardArgs (path f) (originalname f) jobId None) w1 in
   let w2 := snd fwd_result in
   exists evs,
     trace (snd r) = (trace w2 ++ evs)%list /\
     (EvUnlink (path f) ∈ evs) /\
     match fst fwd_result with
     | Throw e =>
         fst r = Throw e /\
         (EvStore (CallFailJob jobId (JStr (message e))) ∈ evs) /\
         store (snd r)
         = snd (jobStore.failJob jobId (JStr (message e)) (clock w2) (store w2)) /\
         (path f ∉ files w2 ->
          EvConsole LWarn (LogCleanupFailedAfterError (message (ENOENT (path f)))) ∈ evs) /\
         (store w2 = store w1 ->
          exists j, store (snd r) !! jobId = Some j /\
                    Job.status j = St_error /\
                    Job.error j = JStr (message e) /\
                    Job.filenamePdf j = originalname f)
     | Return ack =>
         (exists body, fst r = Return (mkResponse 201 body)) /\
         (path f ∉ files w2 ->
          EvConsole LWarn (LogCleanupFailed (message (ENOENT (path f)))) ∈ evs)
     end).
Proof.
  intros Hid r. subst r.
  destruct (store w !! jobId) as [j|] eqn:Hlook.
  - rewrite (uploadHandler_with_taken fwd f jobId w j Hlook).
    rewrite (upload_catch_eq _ _ _ _ Hid). simpl.
    match goal with
    | |- context [cleanup ?p ?k ?w0] =>
        destruct (cleanup_frame p k w0) as (_ & _ & Hgone & evs & Ht & Hin & _)
    end.
    split; [exact Hgone|]. split; [|discriminate].
    rewrite Ht. apply elem_of_app. left. apply elem_of_app. by right.
  - destruct (uploadHandler_fresh_cases fwd f jobId w Hid Hlook)
      as (Hgone & evs & Ht & Hin & Hcase).
    split; [exact Hgone|]. split.
    + rewrite Ht. apply elem_of_app. by right.
    + intros _. exists evs. by repeat split.
Qed.

(* ================================================================== *)
(** ** The per-job routes *)
(* ================================================================== *)

Lemma lookup_job_eq jobId (w : World) :
  lookup_job isValidJobId jobId w =
  if isValidJobId jobId
  then match store w !! jobId with
       | Some job => (Return job, with_events w [EvStore (CallGetJob jobId)])
       | None => (Throw (createError "Job not found" 404 "JOB_NOT_FOUND"),
                  with_events w [EvStore (CallGetJob jobId)])
       end
  else (Throw (createError "Invalid job ID format" 400 "INVALID_JOB_ID"), w).
Proof.
  unfold lookup_job, getJob, jobStore.getJob, bind, emit, with_events.
  destruct (isValidJobId jobId); simpl; [|reflexivity].
  destruct (store w !! jobId); reflexivity.
Qed.

Lemma statusHandler_eq jobId (w : World) :
  statusHandler isValidJobId jobId w =
  match lookup_job isValidJobId jobId w with
  | (Return job, w') => (Return (mkResponse 200 (status_view jobId job)), w')
  | (Throw e, w') => (Throw e, w')
  end.
Proof. reflexivity. Qed.

Lemma executionHandler_eq jobId (w : World) :
  executionHandler isValidJobId jobId w =
  match lookup_job isValidJobId jobId w with
  | (Return job, w') =>
      if truthy (Job.executionId job)
      then (Return (mkResponse 200
                      (mkExecutionBody jobId (execution_of job) (Job.status job)
                         (Job.createdAt job) (Job.updatedAt job))), w')
      else (Throw (createError "No execution information available for this job"
                               404 "NO_EXECUTION_INFO"), w')
  | (Throw e, w') => (Throw e, w')
  end.
Proof.
  unfold executionHandler, bind.
  destruct (lookup_job isValidJobId jobId w) as [[job|e] w']; [|reflexivity].
  destruct (truthy (Job.executionId job)); reflexivity.
Qed.

Lemma downloadUrlHandler_found jobId job (w : World) :
  isValidJobId jobId = true -> store w !! jobId = Some job ->
  downloadUrlHandler isValidJobId generateDownloadUrl jobId w =
  let w1 := with_events w [EvStore (CallGetJob jobId)] in
  if negb (status_eqb (Job.status job) St_done)
  then (Throw (createError "Job not completed yet" 400 "JOB_NOT_READY"), w1)
  else if negb (truthy (Job.r2Key job))
  then (Throw (createError "CSV file not available" 500 "CSV_NOT_AVAILABLE"), w1)
  else
    match generateDownloadUrl jobId with
    | Return u =>
        (Return (mkResponse 200
                   (mkDownloadBody u (pdf_to_csv (Job.filenamePdf job)) 3600)),
         mkWorld (jobStore.updateJob jobId (JobPatch.mk (Some (JStr u)))
                    (clock w) (store w))
                 (files w) (clock w)
                 (trace w ++ [EvStore (CallGetJob jobId);
                              EvGenerateDownloadUrl jobId;
                              EvStore (CallUpdateJob jobId
                                         (JobPatch.mk (Some (JStr u))))]))
    | Throw e =>
        (Throw (createError "Failed to generate download URL" 500 "DOWNLOAD_URL_ERROR"),
         with_events w [EvStore (CallGetJob jobId);
                        EvGenerateDownloadUrl jobId;
                        EvConsole LError (LogDownloadUrlFailed jobId (message e))])
    end.
Proof.
  intros Hvalid Hjob. unfold downloadUrlHandler. unfold bind at 1.
  rewrite lookup_job_eq, Hvalid, Hjob. simpl.
  destruct (negb (status_eqb (Job.status job) St_done)); [reflexivity|].
  destruct (negb (truthy (Job.r2Key job))); [reflexivity|].
  unfold try_catch, updateJob, console, bind, emit, lift, set_store, with_events.
  simpl.
  destruct (generateDownloadUrl jobId) as [u|e]; simpl; by rewrite <- !app_assoc.
Qed.

(** C5. For the status, download-url and execution routes alike: an id
    that fails [isValidJobId] is answered with 400 INVALID_JOB_ID and the
    world (store and trace) is left as it was, so no [getJob] is issued;
    for a valid id the first thing added to the trace is the [getJob]
    call; and an answer 404 JOB_NOT_FOUND occurs only for a valid id that
    the store does not hold. *)
Theorem job_routes_validate_before_lookup (jobId : string) (w : World) :
  let invalid := createError "Invalid job ID format" 400 "INVALID_JOB_ID" in
  let not_found := createError "Job not found" 404 "JOB_NOT_FOUND" in
  let status := statusHandler isValidJobId jobId w in
  let download := downloadUrlHandler isValidJobId generateDownloadUrl jobId w in
  let execution := executionHandler isValidJobId jobId w in
  (isValidJobId jobId = false ->
     status = (Throw invalid, w) /\
     download = (Throw invalid, w) /\
     execution = (Throw invalid, w))
  /\ (isValidJobId jobId = true ->
        (exists evs, trace (snd status) = (trace w ++ EvStore (CallGetJob jobId) :: evs)%list) /\
        (exists evs, trace (snd download) = (trace w ++ EvStore (CallGetJob jobId) :: evs)%list) /\
        (exists evs, trace (snd execution) = (trace w ++ EvStore (CallGetJob jobId) :: evs)%list))
  /\ (isValidJobId jobId = true -> store w !! jobId = None ->
        fst status = Throw not_found /\
        fst download = Throw not_found /\
        fst execution = Throw not_found)
  /\ ((fst status = Throw not_found \/ fst download = Throw not_found \/
       fst execution = Throw not_found) ->
      isValidJobId jobId = true /\ store w !! jobId = None).
Proof.
  intros invalid not_found status download execution.
  subst status download execution invalid not_found.
  rewrite statusHandler_eq, executionHandler_eq.
  split; [|split; [|split]].
  - intros Hinv. unfold downloadUrlHandler, bind.
    rewrite lookup_job_eq, Hinv. by repeat split.
  - intros Hvalid.
    destruct (store w !! jobId) as [job|] eqn:Hjob.
    + rewrite (downloadUrlHandler_found jobId job w Hvalid Hjob).
      rewrite lookup_job_eq, Hvalid, Hjob. simpl. split; [by exists []|]. split.
      * destruct (negb (status_eqb (Job.status job) St_done)); [by exists []|].
        destruct (negb (truthy (Job.r2Key job))); [by exists []|].
        destruct (generateDownloadUrl jobId); simpl; eexists; reflexivity.
      * destruct (truthy (Job.executionId job)); by exists [].
    + unfold downloadUrlHandler, bind.
      rewrite lookup_job_eq, Hvalid, Hjob. simpl. repeat split; by exists [].
  - intros Hvalid Hjob. unfold downloadUrlHandler, bind.
    rewrite lookup_job_eq, Hvalid, Hjob. by repeat split.
  - destruct (isValidJobId jobId) eqn:Hvalid.
    + destruct (store w !! jobId) as [job|] eqn:Hjob; [|by intros _].
      rewrite (downloadUrlHandler_found jobId job w Hvalid Hjob).
      rewrite lookup_job_eq, Hvalid, Hjob. simpl.
      intros [H|[H|H]]; exfalso; revert H.
      * discriminate.
      * destruct (negb (status_eqb (Job.status job) St_done)); [discriminate|].
        destruct (negb (truthy (Job.r2Key job))); [discriminate|].
        destruct (generateDownloadUrl jobId); discriminate.
      * destruct (truthy (Job.executionId job)); discriminate.
    + unfold downloadUrlHandler, bind. rewrite lookup_job_eq, Hvalid. simpl.
      intros [H|[H|H]]; discriminate.
Qed.

Lemma truthy_defined (v : JSValue) : truthy v = true -> v <> JUndefined.
Proof. by intros Ht ->. Qed.

Lemma status_eqb_done (st : Status) : status_eqb st St_done = true <-> st = St_done.
Proof. destruct st; simpl; split; intros H; try reflexivity; discriminate. Qed.

Lemma status_eqb_error (st : Status) : status_eqb st St_error = true <-> st = St_error.
Proof. destruct st; simpl; split; intros H; try reflexivity; discriminate. Qed.

Lemma guarded_is_Some {A} (b : bool) (x : A) :
  is_Some (if b then Some x else None) <-> b = true.
Proof.
  destruct b; split.
  - reflexivity.
  - intros _. by exists x.
  - intros [y Hy]. discriminate.
  - discriminate.
Qed.

Lemma guarded_Some {A} (b : bool) (x y : A) :
  (if b then Some x else None) = Some y -> b = true /\ y = x.
Proof. destruct b; intros [= <-]. by split. Qed.

(** The upload handler attaches an execution record only under the test
    [if (n8nResponse.executionId)]: every [updateExecutionDetails] it
    issues carries a truthy [executionId]. *)
Lemma upload_attaches_truthy_executionId f jobId ack (w : World) id r :
  EvStore (CallUpdateExecutionDetails id r)
    ∈ added w (snd (upload_after_forward f jobId ack w)) ->
  truthy (ExecutionRecord.executionId r) = true.
Proof.
  rewrite upload_after_forward_eq. simpl. rewrite cleanup_eq. unfold added.
  destruct (truthy (Ack.executionId ack)) eqn:Hack;
    destruct (decide (path f ∈ _)); simpl;
    rewrite <- ?app_assoc, drop_app_length; simpl;
    rewrite ?elem_of_cons, elem_of_nil; intros H;
    repeat (destruct H as [H|H]; try discriminate H); try (by destruct H);
    injection H as _ ->; exact Hack.
Qed.

(** The execution route: for a job held by the store under a valid id it
    answers 200 with the job's execution fields when [job.executionId] is
    truthy, and 404 NO_EXECUTION_INFO otherwise; the store is left as it
    was. *)
Lemma executionHandler_view (jobId : string) (job : Job.t) (w : World) :
  isValidJobId jobId = true -> store w !! jobId = Some job ->
  let r := executionHandler isValidJobId jobId w in
  store (snd r) = store w /\
  fst r = if truthy (Job.executionId job)
          then Return (mkResponse 200
                         (mkExecutionBody jobId (execution_of job) (Job.status job)
                            (Job.createdAt job) (Job.updatedAt job)))
          else Throw (createError "No execution information available for this job"
                                  404 "NO_EXECUTION_INFO").
Proof.
  intros Hvalid Hjob r. subst r.
  rewrite executionHandler_eq, lookup_job_eq, Hvalid, Hjob.
  by destruct (truthy (Job.executionId job)).
Qed.

(** C6. For a job held by the store under a valid id, the status route
    answers 200 with the view of that job, in which: [ready] is true
    exactly when the status is done; an [execution] object is present
    exactly when [job.executionId] is truthy (the test under which the
    upload handler attaches the execution record), and then it shows the
    job's execution fields; [downloadUrl] is present exactly when the
    status is done and [presignedUrl] is truthy, so only for a done job with
    a stored reference; [error] is present exactly when the status is
    error and [job.error] is truthy, so only for a failed job with a reason
    set. The store is left as it was. *)
Theorem statusHandler_view (jobId : string) (job : Job.t) (w : World) :
  isValidJobId jobId = true -> store w !! jobId = Some job ->
  let r := statusHandler isValidJobId jobId w in
  exists v,
    fst r = Return (mkResponse 200 v) /\
    store (snd r) = store w /\
    sb_jobId v = jobId /\ sb_status v = Job.status job /\
    sb_filename v = Job.filenamePdf job /\
    (sb_ready v = true <-> Job.status job = St_done) /\
    (is_Some (sb_execution v) <-> truthy (Job.executionId job) = true) /\
    (forall x, sb_execution v = Some x -> x = execution_of job) /\
    (is_Some (sb_downloadUrl v) <->
       Job.status job = St_done /\ truthy (Job.presignedUrl job) = true) /\
    (forall u, sb_downloadUrl v = Some u ->
       Job.status job = St_done /\ u = Job.presignedUrl job /\ u <> JUndefined) /\
    (is_Some (sb_error v) <->
       Job.status job = St_error /\ truthy (Job.error job) = true) /\
    (forall e, sb_error v = Some e ->
       Job.status job = St_error /\ e = Job.error job /\ e <> JUndefined).
Proof.
  intros Hvalid Hjob r. subst r.
  rewrite statusHandler_eq, lookup_job_eq, Hvalid, Hjob. simpl.
  eexists. split; [reflexivity|]. split; [reflexivity|].
  unfold status_view. simpl.
  split; [reflexivity|]. split; [reflexivity|]. split; [reflexivity|].
  split; [apply status_eqb_done|].
  split; [apply guarded_is_Some|].
  split; [intros x Hx; by destruct (guarded_Some _ _ _ Hx)|].
  split.
  { rewrite guarded_is_Some, andb_true_iff, status_eqb_done. reflexivity. }
  split.
  { intros u Hu. destruct (guarded_Some _ _ _ Hu) as [Hb ->].
    apply andb_true_iff in Hb as [Hd Hp]. apply status_eqb_done in Hd.
    repeat split; [exact Hd|]. by apply truthy_defined. }
  split.
  { rewrite guarded_is_Some, andb_true_iff, status_eqb_error. reflexivity. }
  intros e He. destruct (guarded_Some _ _ _ He) as [Hb ->].
  apply andb_true_iff in Hb as [Hd Hp]. apply status_eqb_error in Hd.
  repeat split; [exact Hd|]. by apply truthy_defined.
Qed.

(* ================================================================== *)
(** ** The extension rewrite *)
(* ================================================================== *)

Lemma lower_length (s : string) : String.length (lower s) = String.length s.
Proof. induction s as [|c s IH]; simpl; [reflexivity|by rewrite IH]. Qed.

Lemma append_length (a b : string) :
  String.length (a +:+ b) = (String.length a + String.length b)%nat.
Proof. induction a as [|c a IH]; simpl; [reflexivity|by rewrite IH]. Qed.

Lemma substring_all (s : string) : substring 0 (String.length s) s = s.
Proof. induction s as [|c s IH]; simpl; [reflexivity|by rewrite IH]. Qed.

Lemma substring_append_suffix (stem ext : string) :
  substring (String.length stem) (String.length ext) (stem +:+ ext) = ext.
Proof. induction stem as [|c stem IH]; simpl; [apply substring_all|exact IH]. Qed.

Lemma substring_append_prefix (stem ext : string) :
  substring 0 (String.length stem) (stem +:+ ext) = stem.
Proof.
  induction stem as [|c stem IH]; simpl.
  - by destruct ext.
  - by rewrite IH.
Qed.

Lemma substring_split (n : nat) (s : string) :
  (n <= String.length s)%nat ->
  s = substring 0 n s +:+ substring n (String.length s - n) s.
Proof.
  revert n. induction s as [|c s IH]; intros n Hn; simpl in *.
  - by destruct n.
  - destruct n as [|n]; simpl.
    + by rewrite substring_all.
    + change (String c s = String c (substring 0 n s
                                    +:+ substring n (String.length s - n) s)).
      f_equal. apply IH. lia.
Qed.

Lemma strip_suffix_ci_append (suf stem ext : string) :
  lower ext = suf -> strip_suffix_ci suf (stem +:+ ext) = Some stem.
Proof.
  intros Hext. unfold strip_suffix_ci.
  assert (String.length suf = String.length ext) as Hlen
    by (by rewrite <- Hext, lower_length).
  rewrite append_length, Hlen.
  destruct (Nat.leb_spec (String.length ext)
              (String.length stem + String.length ext)) as [_|Hlt]; [|lia].
  replace (String.length stem + String.length ext - String.length ext)%nat
    with (String.length stem) by lia.
  rewrite substring_append_suffix, Hext, String.eqb_refl.
  by rewrite substring_append_prefix.
Qed.

Lemma strip_suffix_ci_Some (suf s stem : string) :
  strip_suffix_ci suf s = Some stem ->
  exists ext, s = stem +:+ ext /\ lower ext = suf.
Proof.
  unfold strip_suffix_ci.
  destruct (Nat.leb_spec (String.length suf) (String.length s)) as [Hle|]; [|discriminate].
  destruct (String.eqb_spec
              (lower (substring (String.length s - String.length suf)
                                (String.length suf) s)) suf) as [Heq|]; [|discriminate].
  intros [= <-]. eexists. split; [|exact Heq].
  rewrite (substring_split (String.length s - String.length suf) s) at 1 by lia.
  do 2 f_equal. lia.
Qed.

(** [filenamePdf.replace(/\.pdf$/i, '.csv')]: a name ending in ".pdf" in
    any case has these four characters replaced by ".csv"; any other name
    is returned as it is. *)
Lemma pdf_to_csv_spec (name : string) :
  (forall stem ext, name = stem +:+ ext -> lower ext = ".pdf" ->
                    pdf_to_csv name = stem +:+ ".csv") /\
  ((forall stem ext, name = stem +:+ ext -> lower ext <> ".pdf") ->
   pdf_to_csv name = name).
Proof.
  unfold pdf_to_csv, replace_ext. split.
  - intros stem ext -> Hext.
    by rewrite (strip_suffix_ci_append ("." +:+ "pdf") stem ext Hext).
  - intros Hnone.
    destruct (strip_suffix_ci ("." +:+ "pdf") name) as [stem|] eqn:Hs; [|reflexivity].
    destruct (strip_suffix_ci_Some _ _ _ Hs) as (ext & Hname & Hext).
    by destruct (Hnone stem ext Hname).
Qed.

(** C7 (amended). For a job held by the store under a valid id, the
    download-url route: answers 400 JOB_NOT_READY for a job that is not
    done; answers 500 CSV_NOT_AVAILABLE for a done job without a result
    key; and for a done job with a result key asks the storage
    collaborator for a reference. If that yields [u], the route writes [u]
    to the job's [presignedUrl] through [updateJob] (status and the other
    fields kept, [updatedAt] refreshed) and answers 200 with [url = u],
    the filename with a final ".pdf" (any case) turned into ".csv", and
    [expiresInSeconds = 3600]; if the collaborator fails, the route answers
    500 DOWNLOAD_URL_ERROR. In every failing case the store is left as it
    was. *)
Theorem downloadUrlHandler_cases (jobId : string) (job : Job.t) (w : World) :
  isValidJobId jobId = true -> store w !! jobId = Some job ->
  let r := downloadUrlHandler isValidJobId generateDownloadUrl jobId w in
  (Job.status job <> St_done ->
     fst r = Throw (createError "Job not completed yet" 400 "JOB_NOT_READY") /\
     store (snd r) = store w)
  /\ (Job.status job = St_done -> truthy (Job.r2Key job) = false ->
        fst r = Throw (createError "CSV file not available" 500 "CSV_NOT_AVAILABLE") /\
        store (snd r) = store w)
  /\ (Job.status job = St_done -> truthy (Job.r2Key job) = true ->
        match generateDownloadUrl jobId with
        | Return u =>
            fst r = Return (mkResponse 200
                              (mkDownloadBody u (pdf_to_csv (Job.filenamePdf job)) 3600)) /\
            store (snd r)
            = <[jobId := Job.mk St_done (Job.filenamePdf job) (Job.createdAt job)
                           (clock w)
                           (Job.executionId job) (Job.executionStatus job)
                           (Job.executionMessage job) (Job.webhookUrl job)
                           (Job.executionMode job) (Job.r2Key job)
                           (JStr u) (Job.error job)]> (store w) /\
            (EvStore (CallUpdateJob jobId (JobPatch.mk (Some (JStr u))))
               ∈ trace (snd r))
        | Throw e =>
            fst r = Throw (createError "Failed to generate download URL" 500
                                       "DOWNLOAD_URL_ERROR") /\
            store (snd r) = store w
        end)
  /\ (forall stem ext,
        Job.filenamePdf job = stem +:+ ext -> lower ext = ".pdf" ->
        pdf_to_csv (Job.filenamePdf job) = stem +:+ ".csv").
Proof.
  intros Hvalid Hjob r. subst r.
  rewrite (downloadUrlHandler_found jobId job w Hvalid Hjob). simpl.
  split; [|split; [|split]].
  - intros Hnot.
    destruct (status_eqb (Job.status job) St_done) eqn:Hd; simpl; [|by split].
    apply status_eqb_done in Hd. contradiction.
  - intros Hdone Hkey. rewrite Hdone, Hkey. simpl. by split.
  - intros Hdone Hkey. rewrite Hdone, Hkey. simpl.
    destruct (generateDownloadUrl jobId) as [u|e]; simpl; [|by split].
    split; [reflexivity|]. split.
    + unfold jobStore.updateJob. rewrite Hjob, Hdone. reflexivity.
    + apply elem_of_app. right.
      apply list_elem_of_further, list_elem_of_further, list_elem_of_here.
  - apply pdf_to_csv_spec.
Qed.

(* ================================================================== *)
(** ** The callback limiter *)
(* ================================================================== *)

Lemma strict_eq_spec (a b : option string) : strict_eq a b = true <-> a = b.
Proof.
  destruct a as [x|], b as [y|]; simpl; split; intros H;
    try reflexivity; try discriminate.
  - by apply String.eqb_eq in H as ->.
  - injection H as ->. apply String.eqb_refl.
Qed.

Lemma serve_all_skipped (o : LimiterOptions) (reqs : list Request)
    (hits : gmap string Z) :
  Forall (fun q => skip o q = true) reqs ->
  serve o reqs hits = (map (fun _ => Next) reqs, hits).
Proof.
  induction 1 as [|q reqs Hq _ IH]; simpl; [reflexivity|].
  unfold rateLimit. by rewrite Hq, IH.
Qed.

(** C10. The skip predicate of the callback limiter holds exactly when
    the value of the request's x-callback-secret header equals the value
    of CALLBACK_SECRET in the environment, an absent header and an unset
    variable being equal to each other. So with CALLBACK_SECRET unset
    every request without the header is skipped, and any run of such
    requests passes the limiter without a single hit being counted. *)
Theorem callbackLimiter_skip_exactly (req : Request) :
  (skip (callbackLimiter env) req = true
     <-> x_callback_secret req = env !! "CALLBACK_SECRET")
  /\ (env !! "CALLBACK_SECRET" = None -> x_callback_secret req = None ->
        skip (callbackLimiter env) req = true)
  /\ (env !! "CALLBACK_SECRET" = None ->
        forall reqs hits,
          Forall (fun q => x_callback_secret q = None) reqs ->
          serve (callbackLimiter env) reqs hits = (map (fun _ => Next) reqs, hits)).
Proof.
  split; [|split].
  - simpl. apply strict_eq_spec.
  - intros Henv Hreq. simpl. by rewrite Henv, Hreq.
  - intros Henv reqs hits Hall. apply serve_all_skipped.
    eapply Forall_impl; [exact Hall|].
    intros q Hq. simpl in *. by rewrite Henv, Hq.
Qed.

(** With a secret configured, the limiter does what its comment says: a
    request carrying exactly that secret passes uncounted, any other one
    is counted under [ip + '-callback'] and refused beyond 100 hits. *)
Lemma callbackLimiter_with_secret (secret : string) (req : Request)
    (hits : gmap string Z) :
  env !! "CALLBACK_SECRET" = Some secret ->
  (skip (callbackLimiter env) req = true <-> has_valid_secret env req)
  /\ (x_callback_secret req = Some secret ->
        rateLimit (callbackLimiter env) req hits = (Next, hits))
  /\ (x_callback_secret req <> Some secret ->
        let key := ip req +:+ "-callback" in
        let n := default 0 (hits !! key) + 1 in
        rateLimit (callbackLimiter env) req hits
        = (if 100 <? n then TooMany "CALLBACK_RATE_LIMIT_EXCEEDED" else Next,
           <[key := n]> hits)).
Proof.
  intros Henv. split; [|split].
  - simpl. rewrite strict_eq_spec, Henv. unfold has_valid_secret. split.
    + intros Hreq. exists secret. by rewrite Henv.
    + intros (s0 & Hs0 & Hreq). congruence.
  - intros Hreq. unfold rateLimit. simpl. rewrite Henv, Hreq. simpl.
    by rewrite String.eqb_refl.
  - intros Hreq key n. unfold rateLimit. simpl.
    destruct (strict_eq (x_callback_secret req) (env !! "CALLBACK_SECRET")) eqn:Heq;
      [|reflexivity].
    apply strict_eq_spec in Heq. rewrite Henv in Heq. contradiction.
Qed.

End Properties.

(* ================================================================== *)
(** ** The statements at sample inputs *)
(* ================================================================== *)

(** The sample upload with a forwarder that fails: the handler rethrows
    that failure, the temporary file is gone and the job ends in state
    error. *)
Lemma uploadHandler_failure_witness :
  let r := uploadHandler_with sample_forwarder (Some sample_file) "job-1" sample_world in
  "job-1" <> "" /\ store sample_world !! "job-1" = None /\
  (path sample_file ∉ files (snd r)) /\
  (EvUnlink (path sample_file) ∈ trace (snd r)) /\
  fst r = Throw (Error "connect ECONNREFUSED 127.0.0.1:5678").
Proof.
  intros r.
  assert ("job-1" <> "") as Hid by discriminate.
  assert (store sample_world !! "job-1" = None) as Hfresh by reflexivity.
  split; [exact Hid|]. split; [exact Hfresh|].
  destruct (uploadHandler_failure_and_cleanup sample_forwarder sample_file "job-1"
              sample_world Hid)
    as (Hgone & Hunlink & Hcases).
  split; [exact Hgone|]. split; [exact Hunlink|].
  destruct (Hcases Hfresh) as (evs & _ & _ & Hcase).
  vm_compute in Hcase. destruct Hcase as (Hthrow & _).
  subst r. vm_compute. exact Hthrow.
Defined.

(** The status view of the sample done job. *)
Lemma statusHandler_view_witness :
  sample_is_valid "job-1" = true /\
  store sample_done_world !! "job-1" = Some sample_done_job /\
  exists v,
    fst (statusHandler sample_is_valid "job-1" sample_done_world)
    = Return (mkResponse 200 v) /\
    sb_ready v = true /\ is_Some (sb_execution v).
Proof.
  assert (sample_is_valid "job-1" = true) as Hvalid by reflexivity.
  assert (store sample_done_world !! "job-1" = Some sample_done_job) as Hjob
    by (vm_compute; reflexivity).
  split; [exact Hvalid|]. split; [exact Hjob|].
  destruct (statusHandler_view sample_is_valid "job-1" sample_done_job
              sample_done_world Hvalid Hjob)
    as (v & Hr & _ & _ & _ & _ & Hready & Hexec & _).
  exists v. split; [exact Hr|]. split.
  - apply Hready. reflexivity.
  - apply Hexec. reflexivity.
Defined.

(** C7, as first stated, fails for a done job in two ways: when the
    storage collaborator fails, the route answers 500 DOWNLOAD_URL_ERROR;
    when the job has no result key, it answers 500 CSV_NOT_AVAILABLE and
    the collaborator is not even asked. Either way no url is returned and
    nothing is persisted. *)
Lemma downloadUrl_storage_failure_counterexample :
  let failing := fun _ : string => @Throw string (Error "MongoDB connection lost") in
  let working := fun id : string => Return ("/api/files/download/" +:+ id) in
  let r := downloadUrlHandler sample_is_valid failing "job-1" sample_done_world in
  let r' := downloadUrlHandler sample_is_valid working "job-1" sample_keyless_world in
  (Job.status sample_done_job = St_done /\
   fst r = Throw (createError "Failed to generate download URL" 500 "DOWNLOAD_URL_ERROR") /\
   store (snd r) = store sample_done_world)
  /\
  (Job.status sample_keyless_job = St_done /\
   fst r' = Throw (createError "CSV file not available" 500 "CSV_NOT_AVAILABLE") /\
   snd r' = with_events sample_keyless_world [EvStore (CallGetJob "job-1")]).
Proof. vm_compute. repeat split. Qed.

(** The download url of the sample done job. *)
Lemma downloadUrlHandler_cases_witness :
  let storage := fun id : string => Return ("/api/files/download/" +:+ id) in
  sample_is_valid "job-1" = true /\
  store sample_done_world !! "job-1" = Some sample_done_job /\
  fst (downloadUrlHandler sample_is_valid storage "job-1" sample_done_world)
  = Return (mkResponse 200
              (mkDownloadBody "/api/files/download/job-1" "Report.csv" 3600)).
Proof.
  intros storage.
  assert (sample_is_valid "job-1" = true) as Hvalid by reflexivity.
  assert (store sample_done_world !! "job-1" = Some sample_done_job) as Hjob
    by (vm_compute; reflexivity).
  split; [exact Hvalid|]. split; [exact Hjob|].
  destruct (downloadUrlHandler_cases sample_is_valid storage "job-1" sample_done_job
              sample_done_world Hvalid Hjob) as (_ & _ & Hdone & _).
  destruct (Hdone eq_refl eq_refl) as (Hr & _). exact Hr.
Defined.

(** C9 at the failing input: with CALLBACK_SECRET unset, a request that
    sends no x-callback-secret header carries no valid secret, yet the
    limiter skips it, and 150 such requests in one window all pass with no
    hit counted. *)
Lemma callbackLimiter_unset_secret_bypass :
  let env0 : gmap string string := ∅ in
  let req := mkRequest "203.0.113.7" None in
  skip (callbackLimiter env0) req = true /\
  ~ has_valid_secret env0 req /\
  serve (callbackLimiter env0) (replicate 150 req) ∅ = (replicate 150 Next, ∅).
Proof.
  intros env0 req. split; [reflexivity|]. split.
  - intros (s & Hs & _). discriminate.
  - vm_compute. reflexivity.
Qed.

(** The sample callback with the configured secret, and one without. *)
Lemma callbackLimiter_with_secret_witness :
  let env1 : gmap string string := {[ "CALLBACK_SECRET" := "s3cret" ]} in
  let good := mkRequest "203.0.113.7" (Some "s3cret") in
  let bad := mkRequest "203.0.113.7" (Some "guess") in
  env1 !! "CALLBACK_SECRET" = Some "s3cret" /\
  rateLimit (callbackLimiter env1) good ∅ = (Next, ∅) /\
  rateLimit (callbackLimiter env1) bad {[ "203.0.113.7-callback" := 100 ]}
  = (TooMany "CALLBACK_RATE_LIMIT_EXCEEDED", {[ "203.0.113.7-callback" := 101 ]}).
Proof.
  intros env1 good bad.
  assert (env1 !! "CALLBACK_SECRET" = Some "s3cret") as Henv by (vm_compute; reflexivity).
  split; [exact Henv|].
  destruct (callbackLimiter_with_secret env1 "s3cret" good ∅ Henv) as (_ & Hgood & _).
  destruct (callbackLimiter_with_secret env1 "s3cret" bad
              {[ "203.0.113.7-callback" := 100 ]} Henv) as (_ & _ & Hbad).
  split; [apply Hgood; reflexivity|].
  rewrite Hbad by discriminate. vm_compute. reflexivity.
Defined.

(** The execution view of the sample done job. *)
Lemma executionHandler_view_witness :
  sample_is_valid "job-1" = true /\
  store sample_done_world !! "job-1" = Some sample_done_job /\
  fst (executionHandler sample_is_valid "job-1" sample_done_world)
  = Return (mkResponse 200
              (mkExecutionBody "job-1"
                 (mkExecutionView (JStr "E1") (JStr "running") JUndefined
                                  (JStr "production") JUndefined)
                 St_done 1700000000000 1700000005000)).
Proof.
  assert (sample_is_valid "job-1" = true) as Hvalid by reflexivity.
  assert (store sample_done_world !! "job-1" = Some sample_done_job) as Hjob
    by (vm_compute; reflexivity).
  split; [exact Hvalid|]. split; [exact Hjob|].
  destruct (executionHandler_view sample_is_valid "job-1" sample_done_job
              sample_done_world Hvalid Hjob) as (_ & Hr).
  exact Hr.
Defined.

(* ================================================================== *)
(** ** Traces of the sample runs *)
(* ================================================================== *)

(** The scenario of the spec on the store alone: a pending job, a success
    callback with reference R1, then a duplicate with R2 and a late
    failure. Only the first call shows. *)
Example duplicate_callbacks_run :
  let s0 := snd (jobStore.createJob "job-1" "report.pdf" 10 ∅) in
  let calls := [jobStore.CompleteJob "job-1" (JStr "R1") 20;
                jobStore.CompleteJob "job-1" (JStr "R2") 30;
                jobStore.FailJob "job-1" (JStr "timeout") 40] in
  jobStore.run calls s0 !! "job-1"
  = Some (Job.mk St_done "report.pdf" 10 20
                 JUndefined JUndefined JUndefined JUndefined JUndefined
                 (JStr "R1") JUndefined JUndefined).
Proof. vm_compute. reflexivity. Qed.

(** The second declaration of [fileType] is the file's only early error:
    without the statement of line 78 the file compiles, and [require]
    goes on to evaluate it. *)
Example n8nClient_single_early_error :
  let without_78 := (take 15 forwardToN8n_try ++ drop 16 forwardToN8n_try)%list in
  const_names without_78
  = ["formData"; "contentType"; "fileExtension"; "csvFileName"; "fileStream";
     "fileType"; "response"; "responseData"]
  /\ compile (n8nClient_around without_78) = None
  /\ require (n8nClient_around without_78) (ret tt) sample_world
     = (Return tt, sample_world).
Proof. vm_compute. repeat split. Qed.

(** A parameter and a catch parameter count as declared in their block. *)
Example early_errors_of_parameters :
  method_early_error (mkMethod 1 "f" ["jobId"] [ SConst 2 "jobId" ]) = Some "jobId"
  /\ early_error (STry 1 [] "error" [ SConst 2 "error" ]) = Some "error"
  /\ early_error (STry 1 [ SConst 2 "x" ] "error" [ SConst 3 "x" ]) = None
  /\ early_error (SIf 1 [ SConst 2 "x"; SIf 3 [ SConst 4 "x" ] ]) = None.
Proof. vm_compute. repeat split. Qed.

(** A malformed id never reaches the store; an unknown one does. *)
Example status_of_unknown_ids :
  statusHandler sample_is_valid "../etc" sample_done_world
  = (Throw (createError "Invalid job ID format" 400 "INVALID_JOB_ID"), sample_done_world)
  /\ fst (statusHandler sample_is_valid "job-2" sample_done_world)
     = Throw (createError "Job not found" 404 "JOB_NOT_FOUND").
Proof. vm_compute. split; reflexivity. Qed.

(** The extension rewrites on a few names. *)
Example filename_rewrites :
  pdf_to_csv "Report.PDF" = "Report.csv"
  /\ pdf_to_csv "report.pdf.bak" = "report.pdf.bak"
  /\ csvFileName_of "scan.JPEG" = "scan.csv"
  /\ csvFileName_of "notes.txt" = "notes.txt".
Proof. vm_compute. repeat split. Qed.

(* ================================================================== *)
(** ** The forwarder's csv file name *)
(* ================================================================== *)

Lemma append_eq_split (a x b y : string) :
  a +:+ x = b +:+ y -> (String.length b <= String.length a)%nat ->
  exists m, a = b +:+ m /\ y = m +:+ x.
Proof.
  revert a. induction b as [|c b IH]; intros a Heq Hlen.
  - exists a. split; [reflexivity|]. symmetry. exact Heq.
  - destruct a as [|c' a]; [simpl in Hlen; lia|].
    change (String c' (a +:+ x) = String c (b +:+ y)) in Heq.
    injection Heq as -> Heq.
    destruct (IH a Heq) as (m & -> & ->); [simpl in Hlen; lia|].
    exists m. by split.
Qed.

Lemma append_inj_suffix (a b s : string) : a +:+ s = b +:+ s -> a = b.
Proof.
  intros Heq.
  assert (String.length a = String.length b) as Hlen.
  { apply (f_equal String.length) in Heq. rewrite !append_length in Heq. lia. }
  destruct (append_eq_split a s b s Heq) as (m & -> & Hs); [lia|].
  rewrite append_length in Hlen.
  destruct m; [|simpl in Hlen; lia].
  clear. induction b as [|c b IH]; [reflexivity|].
  change (String c (b +:+ "") = String c b). by rewrite IH.
Qed.







(* ================================================================== *)
(** ** More on the routes of jobs.js *)
(* ================================================================== *)

Section MoreProperties.

Variable isValidJobId : string -> bool.
Variable generateDownloadUrl : string -> Outcome string.
Variable env : gmap string string.

(** X13. The status, download-url and execution routes fail only with
    one of six fixed errors (message, status and code): whatever the
    storage collaborator throws is logged and replaced by
    DOWNLOAD_URL_ERROR, never passed on. *)
Theorem job_routes_errors_closed (jobId : string) (w : World) (e : Exn) :
  (fst (statusHandler isValidJobId jobId w) = Throw e \/
   fst (downloadUrlHandler isValidJobId generateDownloadUrl jobId w) = Throw e \/
   fst (executionHandler isValidJobId jobId w) = Throw e) ->
  e ∈ job_routes_errors.
Proof.
  unfold job_routes_errors. rewrite statusHandler_eq, executionHandler_eq.
  destruct (isValidJobId jobId) eqn:Hvalid.
  - destruct (store w !! jobId) as [job|] eqn:Hjob.
    + rewrite (downloadUrlHandler_found isValidJobId generateDownloadUrl
                 jobId job w Hvalid Hjob).
      rewrite lookup_job_eq, Hvalid, Hjob. simpl.
      intros [H|[H|H]]; revert H.
      * discriminate.
      * destruct (negb (status_eqb (Job.status job) St_done)); [intros [= <-]; in_list|].
        destruct (negb (truthy (Job.r2Key job))); [intros [= <-]; in_list|].
        destruct (generateDownloadUrl jobId); [discriminate|intros [= <-]; in_list].
      * destruct (truthy (Job.executionId job)); [discriminate|intros [= <-]; in_list].
    + unfold downloadUrlHandler, bind. rewrite lookup_job_eq, Hvalid, Hjob. simpl.
      intros [H|[H|H]]; injection H as <-; in_list.
  - unfold downloadUrlHandler, bind. rewrite lookup_job_eq, Hvalid. simpl.
    intros [H|[H|H]]; injection H as <-; in_list.
Qed.

End MoreProperties.

Lemma upload_after_forward_added (f : UploadedFile) (jobId : string)
    (ack : Ack.t) (w : World) :
  let record := ExecutionRecord.mk (Ack.executionId ack) (Ack.executionStatus ack)
                  (Ack.message ack) (Ack.webhookUrl ack) (Ack.executionMode ack) in
  added w (snd (upload_after_forward f jobId ack w))
  = ((if truthy (Ack.executionId ack)
      then [EvStore (CallUpdateExecutionDetails jobId record);
            EvConsole LLog (LogExecutionTracking (Ack.executionId ack) jobId)]
      else [])
     ++ EvUnlink (path f)
     :: (if decide (path f ∈ files w) then []
         else [EvConsole LWarn (LogCleanupFailed (message (ENOENT (path f))))])
     ++ [EvConsole LLog (LogJobCreated jobId (originalname f))])%list.
Proof.
  intros record. subst record.
  rewrite upload_after_forward_eq. simpl. rewrite cleanup_eq. unfold added.
  destruct (truthy (Ack.executionId ack)); simpl;
    destruct (decide (path f ∈ files w)); simpl;
    rewrite <- ?app_assoc; simpl; by rewrite drop_app_length.
Qed.

(** X12. Once the forwarder has answered, the upload handler cannot fail
    any more: it answers 201 with the job id and the file name. The
    answer shows an [execution] object exactly when the acknowledgment's
    [executionId] is truthy, which is exactly when the handler issued
    [updateExecutionDetails]; that call is for this job and passes the
    acknowledgment's five fields, of which the answer repeats four
    (not the webhook url). *)
Theorem upload_response_mirrors_store_call
    (f : UploadedFile) (jobId : string) (ack : Ack.t) (w : World) :
  let r := upload_after_forward f jobId ack w in
  let record := ExecutionRecord.mk (Ack.executionId ack) (Ack.executionStatus ack)
                  (Ack.message ack) (Ack.webhookUrl ack) (Ack.executionMode ack) in
  exists answer,
    fst r = Return (mkResponse 201 answer) /\
    up_jobId answer = jobId /\ up_filename answer = originalname f /\
    (is_Some (up_execution answer) <-> truthy (Ack.executionId ack) = true) /\
    (truthy (Ack.executionId ack) = true <->
       EvStore (CallUpdateExecutionDetails jobId record) ∈ added w (snd r)) /\
    (forall id rec,
        EvStore (CallUpdateExecutionDetails id rec) ∈ added w (snd r) ->
        id = jobId /\ rec = record) /\
    (forall v, up_execution answer = Some v ->
               v = mkExecutionView (Ack.executionId ack) (Ack.executionStatus ack)
                     (Ack.message ack) (Ack.executionMode ack) JUndefined).
Proof.
  intros r record. subst r.
  pose proof (upload_after_forward_added f jobId ack w) as Hadded.
  cbv zeta in Hadded. fold record in Hadded. rewrite Hadded. clear Hadded.
  rewrite upload_after_forward_eq. cbv zeta. cbn [fst].
  eexists. split; [reflexivity|]. cbn [up_jobId up_filename up_execution].
  split; [reflexivity|]. split; [reflexivity|].
  split; [apply guarded_is_Some|].
  assert (forall id rec,
             EvStore (CallUpdateExecutionDetails id rec)
               ∈ (EvUnlink (path f)
                  :: (if decide (path f ∈ files w) then []
                      else [EvConsole LWarn
                              (LogCleanupFailed (message (ENOENT (path f))))])
                  ++ [EvConsole LLog (LogJobCreated jobId (originalname f))])%list ->
             False) as Hrest.
  { intros id rec H. destruct (decide (path f ∈ files w)); simpl in H;
      rewrite ?elem_of_cons, elem_of_nil in H;
      repeat (destruct H as [H|H]; try discriminate H); exact H. }
  split; [|split].
  - destruct (truthy (Ack.executionId ack)); split.
    + intros _. apply elem_of_app. left. apply list_elem_of_here.
    + reflexivity.
    + discriminate.
    + intros H. simpl in H. by destruct (Hrest _ _ H).
  - intros id rec H. apply elem_of_app in H as [H|H]; [|by destruct (Hrest _ _ H)].
    destruct (truthy (Ack.executionId ack)); [|by apply elem_of_nil in H].
    rewrite !elem_of_cons, elem_of_nil in H.
    destruct H as [H|[H|H]]; try discriminate H; [|by destruct H].
    injection H as -> ->. by split.
  - intros v Hv. by destruct (guarded_Some _ _ _ Hv).
Qed.

(* ================================================================== *)
(** ** The limiters configured from the environment *)
(* ================================================================== *)

Section LimiterProperties.

Variable parseInt : string -> Num.
Variable env : gmap string string.

Lemma limit_setting_value (name dflt : string) (fallback : Z) :
  dflt <> "" -> decimal_from 0 dflt = Some fallback ->
  max_number (limit_setting parseInt env name dflt fallback)
  = limit_in_force parseInt env name fallback.
Proof.
  intros Hne Hdec. unfold limit_setting, getEnvVar, or_else, limit_in_force.
  assert (config_truthy (CStr dflt) = true) as Hd
    by (simpl; by destruct (String.eqb_spec dflt "")).
  destruct (env !! name) as [v|]; [destruct (String.eqb v "")|].
  - rewrite Hd. simpl. by rewrite Hdec.
  - destruct (parseInt v) as [|n]; simpl; [reflexivity|].
    by destruct (n =? 0).
  - rewrite Hd. simpl. by rewrite Hdec.
Qed.

(** X10. For each of the upload, status, download, list and delete
    limiters, the limit in force is the default when its variable is
    unset or empty, and also when [parseInt] of the value is NaN or 0;
    otherwise it is the parsed number. A limit of 0 can therefore not be
    configured. No such limiter skips any request. *)
Theorem env_limiters_limits :
  Forall (fun entry =>
            let '(limiter, name, dflt) := entry in
            max limiter = limit_in_force parseInt env name dflt /\
            (max limiter = 0 -> False) /\
            forall req, skip limiter req = false)
         (env_limiters parseInt env).
Proof.
  assert (forall name dflt,
             dflt <> 0 -> limit_in_force parseInt env name dflt <> 0) as Hnz.
  { intros name dflt Hd. unfold limit_in_force.
    destruct (env !! name) as [v|]; [|exact Hd].
    destruct (String.eqb v ""); [exact Hd|].
    destruct (parseInt v) as [|n]; [exact Hd|].
    destruct (Z.eqb_spec n 0); [exact Hd|assumption]. }
  unfold env_limiters.
  repeat (apply Forall_cons; split;
          [ simpl; rewrite limit_setting_value by (first [discriminate|reflexivity]);
            split; [reflexivity|]; split; [apply Hnz; discriminate|reflexivity] |]).
  by apply Forall_nil.
Qed.

Lemma serve_counts (limiter : LimiterOptions) (suffix : string) :
  (forall q, skip limiter q = false) ->
  (forall q, keyGenerator limiter q = ip q +:+ suffix) ->
  forall (reqs : list Request) (hits : gmap string Z) (addr : string),
    default 0 (snd (serve limiter reqs hits) !! (addr +:+ suffix))
    = default 0 (hits !! (addr +:+ suffix))
      + Z.of_nat (length (filter (fun q => ip q = addr) reqs)).
Proof.
  intros Hskip Hkey reqs. induction reqs as [|q reqs IH]; intros hits addr.
  - simpl. lia.
  - simpl. unfold rateLimit. rewrite Hskip, Hkey.
    specialize (IH (<[ip q +:+ suffix := default 0 (hits !! (ip q +:+ suffix)) + 1]> hits) addr).
    destruct (serve limiter reqs _) as [vs hits'']. simpl in *. rewrite IH.
    rewrite filter_cons. destruct (decide (ip q = addr)) as [->|Hne].
    + rewrite lookup_insert_eq. simpl length. simpl. lia.
    + rewrite lookup_insert_ne; [reflexivity|].
      intros Heq. apply Hne. by apply append_inj_suffix in Heq.
Qed.

(** X11. Within one window, each of these five limiters keeps one count
    per client address: after any run of requests that fall into the
    window, the hits stored under an address's key are the number of
    requests that came from that address, requests from other addresses
    having no effect on it; and the next request of the window from the
    address is refused, with the limiter's own code, exactly when that
    number plus one exceeds the limit. *)
Theorem env_limiters_count_per_ip :
  Forall (fun entry =>
            let limiter := fst (fst entry) in
            forall (reqs : list Request) (req : Request),
              let hits := snd (serve limiter reqs ∅) in
              let seen := Z.of_nat (length (filter (fun q => ip q = ip req) reqs)) in
              default 0 (hits !! keyGenerator limiter req) = seen /\
              fst (rateLimit limiter req hits)
              = (if max limiter <? seen + 1 then TooMany (limit_code limiter) else Next))
         (env_limiters parseInt env).
Proof.
  assert (forall limiter suffix,
             (forall q, skip limiter q = false) ->
             (forall q, keyGenerator limiter q = ip q +:+ suffix) ->
             forall (reqs : list Request) (req : Request),
               let hits := snd (serve limiter reqs ∅) in
               let seen := Z.of_nat (length (filter (fun q => ip q = ip req) reqs)) in
               default 0 (hits !! keyGenerator limiter req) = seen /\
               fst (rateLimit limiter req hits)
               = (if max limiter <? seen + 1 then TooMany (limit_code limiter) else Next))
    as Hgen.
  { intros limiter suffix Hskip Hkey reqs req hits seen.
    assert (default 0 (hits !! keyGenerator limiter req) = seen) as Hseen.
    { subst hits seen. rewrite Hkey, (serve_counts limiter suffix Hskip Hkey).
      rewrite lookup_empty. simpl. lia. }
    split; [exact Hseen|].
    unfold rateLimit. rewrite Hskip. simpl. by rewrite Hseen. }
  unfold env_limiters.
  repeat (apply Forall_cons; split; [eapply Hgen; intros q; reflexivity|]).
  by apply Forall_nil.
Qed.

End LimiterProperties.

(* ================================================================== *)
(** ** The job listing *)
(* ================================================================== *)

Lemma filter_split_length {A} (p : A -> bool) (l : list A) :
  (length (filter (fun x => p x = true) l)
   + length (filter (fun x => negb (p x) = true) l))%nat = length l.
Proof.
  induction l as [|x l IH]; [reflexivity|].
  rewrite !filter_cons. destruct (p x); simpl; lia.
Qed.

(** X9. The listing of GET /api/jobs counts every job exactly once: the
    numbers of jobs with and without execution details add up to the
    number of jobs, and the listed jobs are those of the store, in the
    same order, each under its own id. The route exists unless NODE_ENV is
    exactly 'production'. *)
Theorem listJobsHandler_counts (allJobs : list (string * Job.t)) (stats : JSValue)
    (env : gmap string string) :
  let listing := body (listJobsHandler allJobs stats) in
  (withExecution (listing_execution listing)
   + withoutExecution (listing_execution listing))%nat = length allJobs /\
  listing_jobs listing = allJobs /\
  (list_route_registered env = true <-> env !! "NODE_ENV" <> Some "production").
Proof.
  simpl. split; [|split].
  - apply (filter_split_length (fun e => truthy (Job.executionId (snd e)))).
  - induction allJobs as [|[id job] rest IH]; [reflexivity|]. simpl. by rewrite IH.
  - unfold list_route_registered. rewrite negb_true_iff, <- not_true_iff_false.
    by rewrite strict_eq_spec.
Qed.

(* ================================================================== *)
(** ** The files router *)
(* ================================================================== *)

Lemma insert_by_date_perm (x : FileEntry) (l : list FileEntry) :
  insert_by_date x l ≡ₚ x :: l.
Proof.
  induction l as [|y l IH]; [reflexivity|]. simpl.
  destruct (fe_uploadDate y <=? fe_uploadDate x); [reflexivity|].
  rewrite IH. apply Permutation_swap.
Qed.

Lemma sort_newest_first_perm (l : list FileEntry) : sort_newest_first l ≡ₚ l.
Proof.
  induction l as [|x l IH]; [reflexivity|].
  unfold sort_newest_first in *. simpl. by rewrite insert_by_date_perm, IH.
Qed.

Lemma insert_by_date_sorted (x : FileEntry) (l : list FileEntry) :
  StronglySorted newer_or_same l -> StronglySorted newer_or_same (insert_by_date x l).
Proof.
  induction 1 as [|y l Hl IH Hy]; simpl.
  - repeat constructor.
  - destruct (Z.leb_spec (fe_uploadDate y) (fe_uploadDate x)) as [Hle|Hgt].
    + constructor; [by constructor|].
      constructor; [exact Hle|].
      eapply Forall_impl; [exact Hy|]. unfold newer_or_same. intros z Hz. lia.
    + constructor; [exact IH|].
      rewrite insert_by_date_perm.
      constructor; [unfold newer_or_same; lia|exact Hy].
Qed.

Lemma sort_newest_first_sorted (l : list FileEntry) :
  StronglySorted newer_or_same (sort_newest_first l).
Proof.
  induction l as [|x l IH]; [constructor|].
  unfold sort_newest_first in *. simpl. by apply insert_by_date_sorted.
Qed.

Lemma insert_by_date_filter (d : Z) (x : FileEntry) (l : list FileEntry) :
  StronglySorted newer_or_same l ->
  filter (fun e => fe_uploadDate e = d) (insert_by_date x l)
  = filter (fun e => fe_uploadDate e = d) (x :: l).
Proof.
  induction 1 as [|y l Hl IH Hy]; simpl; [reflexivity|].
  destruct (Z.leb_spec (fe_uploadDate y) (fe_uploadDate x)) as [Hle|Hgt];
    [reflexivity|].
  rewrite (filter_cons _ y), IH, !filter_cons.
  destruct (decide (fe_uploadDate y = d)), (decide (fe_uploadDate x = d));
    try reflexivity. lia.
Qed.

Lemma sort_newest_first_stable (d : Z) (l : list FileEntry) :
  filter (fun e => fe_uploadDate e = d) (sort_newest_first l)
  = filter (fun e => fe_uploadDate e = d) l.
Proof.
  induction l as [|x l IH]; [reflexivity|].
  unfold sort_newest_first in *. simpl.
  rewrite insert_by_date_filter by apply sort_newest_first_sorted.
  by rewrite !filter_cons, IH.
Qed.

(* ================================================================== *)
(** ** The download route of the files router *)
(* ================================================================== *)




Section FilesRouterProperties.

Variable getCSVStream : string -> Settled CSVStream.
Variable getStats : Outcome StorageStats.
Variable deleteCSV : string -> Outcome JSValue.
Variable setHeader : string -> JSValue -> option Exn.
Variable formatFileSize : Z -> string.
Variable toLocaleString : Z -> string.

(** X8. When the storage statistics can be read, GET /api/files answers
    with one entry per stored file, newest first: the entries are a
    rearrangement of the stored files, in order of decreasing upload
    date, files of the same date keeping the order in which storage
    reported them; each entry's download url is /api/files/download/
    followed by its id, and the response time is the difference of the two
    clock readings. When the statistics cannot be read, the answer is 500
    FILES_LIST_ERROR. *)
Theorem listFilesHandler_newest_first (startTime endTime : Z) :
  let r := listFilesHandler getStats formatFileSize toLocaleString startTime endTime in
  match getStats with
  | Return stats =>
      let stored := map (file_entry formatFileSize toLocaleString) (stats_files stats) in
      exists listing,
        fst r = Return listing /\
        fl_files listing ≡ₚ stored /\
        StronglySorted newer_or_same (fl_files listing) /\
        (forall d, filter (fun e => fe_uploadDate e = d) (fl_files listing)
                   = filter (fun e => fe_uploadDate e = d) stored) /\
        Forall (fun e => fe_downloadUrl e = "/api/files/download/" +:+ fe_id e)
               (fl_files listing) /\
        fl_totalFiles listing = totalFiles stats /\
        fl_totalSize listing = totalSize stats /\
        fl_responseTime listing = endTime - startTime
  | Throw _ =>
      fst r = Throw (createError "Failed to retrieve files" 500 "FILES_LIST_ERROR")
  end.
Proof.
  intros r. subst r. unfold listFilesHandler.
  destruct getStats as [stats|e]; [|reflexivity]. simpl.
  eexists. split; [reflexivity|]. simpl.
  split; [apply sort_newest_first_perm|].
  split; [apply sort_newest_first_sorted|].
  split; [intros d; apply sort_newest_first_stable|].
  split; [|by repeat split].
  rewrite sort_newest_first_perm. apply Forall_forall.
  intros e He. apply list_elem_of_fmap in He as (file & -> & _). reflexivity.
Qed.

(** X7. DELETE /api/files/:fileId asks storage to delete only a file it
    lists under the requested id: [deleteCSV] is called, if at all, with
    the job id of the first listed file with that id. An id that is not
    listed ends in 404 FILE_NOT_FOUND without any deletion. The route
    answers success only when [deleteCSV] returned a truthy value, and a
    falsy value ends in 500 DELETE_ERROR: the DELETE_FAILED error thrown
    inside the handler is caught by the handler itself and never leaves
    it. *)
Theorem deleteFileHandler_targets_listed_file (fileId : string) :
  let r := deleteFileHandler getStats deleteCSV fileId in
  let listed stats :=
    find (fun f => String.eqb (file_id f) fileId) (stats_files stats) in
  (forall jobId, MongoDeleteCSV jobId ∈ snd r ->
     exists stats file,
       getStats = Return stats /\ listed stats = Some file /\
       file_id file = fileId /\ file_jobId file = jobId)
  /\ (forall answer, fst r = Return answer ->
        exists stats file deleted,
          getStats = Return stats /\ listed stats = Some file /\
          deleteCSV (file_jobId file) = Return deleted /\ truthy deleted = true /\
          answer = mkDeleteBody true "File deleted successfully" fileId
                                (file_filename file))
  /\ (forall stats, fileId <> "" -> getStats = Return stats -> listed stats = None ->
        r = (Throw (createError "File not found" 404 "FILE_NOT_FOUND"),
             [MongoGetStats;
              FilesConsole LError (LogDeleteFailed fileId "File not found")]))
  /\ (forall stats file deleted,
        fileId <> "" -> getStats = Return stats -> listed stats = Some file ->
        deleteCSV (file_jobId file) = Return deleted -> truthy deleted = false ->
        fst r = Throw (createError "Failed to delete file" 500 "DELETE_ERROR"))
  /\ (forall e, fst r = Throw e -> code e <> Some "DELETE_FAILED").
Proof.
  intros r listed. subst r listed. unfold deleteFileHandler. cbn [truthy].
  destruct (String.eqb_spec fileId "") as [->|Hid]; simpl.
  { split; [intros jobId H; by apply elem_of_nil in H|].
    split; [discriminate|].
    split; [intros stats Hne; by destruct Hne|].
    split; [intros stats file deleted Hne; by destruct Hne|].
    intros e [= <-]. discriminate. }
  destruct getStats as [stats|e0]; simpl.
  2:{ split; [intros jobId H; rewrite !elem_of_cons, elem_of_nil in H;
              by destruct H as [H|[H|H]]|].
      split; [discriminate|]. split; [discriminate|]. split; [discriminate|].
      intros e [= <-]. by destruct (includes "not found" (message e0)). }
  destruct (find _ (stats_files stats)) as [file|] eqn:Hfind; simpl.
  2:{ split; [intros jobId H; rewrite !elem_of_cons, elem_of_nil in H;
              by destruct H as [H|[H|H]]|].
      split; [discriminate|].
      split; [intros stats0 _ [= <-] _; reflexivity|].
      split; [intros stats0 file deleted _ [= <-]; by rewrite Hfind|].
      intros e [= <-]. discriminate. }
  assert (file_id file = fileId) as Hfile.
  { apply find_some in Hfind as [_ Heq]. by apply String.eqb_eq in Heq. }
  assert (forall (evs : list FilesEvent) jobId,
             MongoDeleteCSV jobId ∈ evs ->
             (forall ev, ev ∈ evs ->
                         ev = MongoDeleteCSV (file_jobId file) \/ is_mongo ev = false
                         \/ ev = MongoGetStats) ->
             exists stats0 file0,
               Return stats = Return stats0 /\
               find (fun f => String.eqb (file_id f) fileId) (stats_files stats0)
               = Some file0 /\
               file_id file0 = fileId /\ file_jobId file0 = jobId) as Hcalls.
  { intros evs jobId Hin Hall. exists stats, file.
    destruct (Hall _ Hin) as [[= ->]|[H|H]]; [by repeat split|discriminate..]. }
  destruct (deleteCSV (file_jobId file)) as [deleted|e0] eqn:Hdel; simpl.
  - destruct (truthy deleted) eqn:Htruthy; simpl.
    + split.
      { intros jobId H. apply (Hcalls _ _ H). intros ev Hev.
        rewrite !elem_of_cons, elem_of_nil in Hev.
        destruct Hev as [->|[->|[->|[]]]]; auto. }
      split.
      { intros answer [= <-]. exists stats, file, deleted. by repeat split. }
      split; [intros stats0 _ [= <-]; by rewrite Hfind|].
      split.
      { intros stats0 file0 deleted0 _ [= <-]. rewrite Hfind. intros [= <-].
        rewrite Hdel. intros [= <-]. by rewrite Htruthy. }
      discriminate.
    + split.
      { intros jobId H. apply (Hcalls _ _ H). intros ev Hev.
        rewrite !elem_of_cons, elem_of_nil in Hev.
        destruct Hev as [->|[->|[->|[]]]]; auto. }
      split; [discriminate|].
      split; [intros stats0 _ [= <-]; by rewrite Hfind|].
      split; [reflexivity|].
      intros e [= <-]. discriminate.
  - split.
    { intros jobId H. apply (Hcalls _ _ H). intros ev Hev.
      rewrite !elem_of_cons, elem_of_nil in Hev.
      destruct Hev as [->|[->|[->|[]]]]; auto. }
    split; [discriminate|].
    split; [intros stats0 _ [= <-]; by rewrite Hfind|].
    split.
    { intros stats0 file0 deleted0 _ [= <-]. rewrite Hfind. intros [= <-].
      rewrite Hdel. discriminate. }
    intros e [= <-]. by destruct (includes "not found" (message e0)).
Qed.



End FilesRouterProperties.

(* ================================================================== *)
(** ** The further statements at sample inputs *)
(* ================================================================== *)

(** A malformed id on the status route: the error is one of the six. *)
Lemma job_routes_errors_closed_witness :
  let e := createError "Invalid job ID format" 400 "INVALID_JOB_ID" in
  fst (statusHandler sample_is_valid "../etc" sample_done_world) = Throw e /\
  e ∈ job_routes_errors.
Proof.
  intros e.
  assert (fst (statusHandler sample_is_valid "../etc" sample_done_world) = Throw e)
    as Hthrow by reflexivity.
  split; [exact Hthrow|].
  exact (job_routes_errors_closed sample_is_valid
           (fun id => Return ("/api/files/download/" +:+ id))
           "../etc" sample_done_world e (or_introl Hthrow)).
Defined.

(** The sample listing: newest first, the two files of date 3000 in the
    order storage gave them. *)
Example list_files_order :
  match fst (listFilesHandler (Return sample_stats) (fun _ => "") (fun _ => "") 10 17) with
  | Return listing =>
      map fe_filename (fl_files listing) = ["b.csv"; "c.csv"; "shadow.csv"; "a.csv"]
      /\ fl_responseTime listing = 7
      /\ fl_headers listing = [("Cache-Control", "private, max-age=60");
                               ("X-Response-Time", "7ms")]
  | Throw _ => False
  end.
Proof. vm_compute. repeat split. Qed.

(** Two files are listed under the id f2; the first one is deleted. *)
Example delete_first_match :
  deleteFileHandler (Return sample_stats) (fun _ => Return (JBool true)) "f2"
  = (Return (mkDeleteBody true "File deleted successfully" "f2" "b.csv"),
     [MongoGetStats; MongoDeleteCSV "job-2";
      FilesConsole LLog (LogFileDeleted "b.csv" "f2")]).
Proof. reflexivity. Qed.

(** A rejection whose message mentions "not found" becomes a 404, a
    header that Node refuses a 500; a rejection with a bare string, which
    has no message, leaves the [catch] block as a TypeError; a stream that
    fails before the headers have gone out ends in the 500 of the stream's
    own handler. *)
Example download_failures :
  let csv fate := fun _ : string => Resolved (mkCSVStream fate "a.csv" "text/csv" 100) in
  fst (downloadFileHandler
         (fun _ => Rejected (ThrownError (Error "File not found in GridFS")))
         (fun _ _ => None) "f9")
  = Throw (createError "File not found" 404 "FILE_NOT_FOUND")
  /\ fst (downloadFileHandler (csv StreamEnds)
            (fun name _ =>
               if String.eqb name "Content-Disposition"
               then Some (TypeError "Invalid character in header content")
               else None)
            "f1")
     = Throw (createError "Failed to serve file" 500 "FILE_SERVE_ERROR")
  /\ downloadFileHandler (fun _ => Rejected (ThrownValue (JStr "storage is down")))
       (fun _ _ => None) "f1"
     = (Throw (TypeError "Cannot read properties of undefined (reading 'includes')"),
        [MongoGetCSVStream "f1"; FilesConsole LError (LogServeFailed JUndefined)])
  /\ downloadFileHandler (csv (StreamFails (Error "chunk 3 missing") false))
       (fun _ _ => None) "f1"
     = (Return (ReadError 500 "File read error"),
        [MongoGetCSVStream "f1"; FilesConsole LLog (LogServing "a.csv" 100);
         FilesConsole LError (LogStreamError "chunk 3 missing")]).
Proof. repeat split. Qed.

(** Limits from the environment: unset, zero, not a number, a number. *)
Example upload_limits :
  let limit_for env := max (uploadLimiter sample_parseInt env) in
  limit_for ∅ = 10
  /\ limit_for {[ "RL_UPLOAD_MAX" := "0" ]} = 10
  /\ limit_for {[ "RL_UPLOAD_MAX" := "many" ]} = 10
  /\ limit_for {[ "RL_UPLOAD_MAX" := "" ]} = 10
  /\ limit_for {[ "RL_UPLOAD_MAX" := "25" ]} = 25.
Proof. vm_compute. repeat split. Qed.

(** Twelve uploads from one address under the default limit: ten pass. *)
Example upload_limit_reached :
  fst (serve (uploadLimiter sample_parseInt ∅)
             (replicate 12 (mkRequest "203.0.113.7" None)) ∅)
  = (replicate 10 Next ++ replicate 2 (TooMany "UPLOAD_RATE_LIMIT_EXCEEDED"))%list.
Proof. vm_compute. reflexivity. Qed.
